(** * Instagram Format Resizer: the fit-and-pad transform and the preset table

    A shallow embedding of [IGFormatResizer.py].  The script is a thin
    Tkinter form around one function, [resize_with_transparent_bg], which
    opens an image with Pillow, shrinks it with [Image.thumbnail], pastes it
    in the middle of a transparent canvas and saves the canvas as PNG.

    What the script itself does (the arithmetic of the centring offset, the
    order of the calls, the [try]/[except] dispatch, the preset lookup) is
    translated line by line.  What it delegates to Pillow is modelled here:

    - rasters are records of a size and a row-major list of RGBA pixels;
    - [Image.new] and [Image.paste] (with an RGBA mask) follow Pillow's
      semantics, the blend being the integer [BLEND] macro of Pillow's C
      sources ([paste_mask_RGBA] of libImaging);
    - the size computed by [Image.thumbnail] follows Pillow's
      [preserve_aspect_ratio] (Pillow 7.0 and later); Python's binary
      floating point is rendered by exact rationals ([Q]), except where
      two candidate sizes are equally close as rationals: there the
      rounding of the floats decides, and the outcome is a parameter;
    - the pixels computed by the LANCZOS filter, the decoder behind
      [Image.open] and the encoder and file system behind [Image.save] are
      parameters of the development (the class [Platform]).

    The callbacks of the form ([select_input], [select_output],
    [run_conversion]) act on the Tk variables, the text of the status bar
    and the message boxes shown; the answers of the file dialogs are their
    arguments, and the builtins [str.strip] and [int] are parameters (the
    class [Python]). *)

From Stdlib Require Import ZArith QArith Qround Qabs Qminmax Lia Ascii String.
From stdpp Require Import base gmap strings list pretty.

Local Open Scope string_scope.
Local Open Scope Z_scope.

(** ** Python exceptions and fallible computations *)

(** The exception classes that occur in the script or that Pillow and the
    operating system raise on its paths.  All of them derive from Python's
    [Exception]; [FileNotFoundError] and [PermissionError] are the two the
    script catches by name. *)
Inductive exn_class :=
  | FileNotFoundError
  | PermissionError
  | AttributeError
  | ZeroDivisionError
  | ValueError
  | KeyError
  | OSError
  | UnidentifiedImageError
  | Exception.

Global Instance exn_class_eq_dec : EqDecision exn_class.
Proof. solve_decision. Defined.

(** An exception value: its class and [str(e)]. *)
Record exn := Exn { exn_cls : exn_class; exn_str : string }.

Inductive result (A : Type) :=
  | Return (a : A)
  | Raise (e : exn).
Arguments Return {A} a.
Arguments Raise {A} e.

Global Instance result_ret : MRet result := @Return.
Global Instance result_bind : MBind result := λ A B f r,
  match r with
  | Return a => f a
  | Raise e => Raise e
  end.

(** ** Rasters: the part of Pillow the script relies on *)

Module PIL.

(** One RGBA pixel, [(R, G, B, A)], each band an unsigned byte. *)
Definition pixel : Type := Z * Z * Z * Z.

Definition red (p : pixel) : Z := p.1.1.1.
Definition green (p : pixel) : Z := p.1.1.2.
Definition blue (p : pixel) : Z := p.1.2.
Definition alpha (p : pixel) : Z := p.2.

(** The colour the script gives to [Image.new]: [(0, 0, 0, 0)]. *)
Definition transparent : pixel := (0, 0, 0, 0).

(** An image in mode RGBA: [size] is [(width, height)], [data] holds the
    pixels row after row. *)
Record Image := { size : Z * Z; data : list pixel }.

Definition width (im : Image) : Z := (size im).1.
Definition height (im : Image) : Z := (size im).2.

(** The buffer has one pixel per position. *)
Definition well_formed (im : Image) : Prop :=
  0 ≤ width im ∧ 0 ≤ height im ∧
  length (data im) = Z.to_nat (width im * height im).

(** [im.getpixel((x, y))]; [None] where Python raises [IndexError]. *)
Definition getpixel (im : Image) (x y : Z) : option pixel :=
  if bool_decide (0 ≤ x < width im ∧ 0 ≤ y < height im)
  then data im !! Z.to_nat (y * width im + x)
  else None.

(** [Image.new("RGBA", size, color)]. *)
Definition Image_new (sz : Z * Z) (color : pixel) : result Image :=
  if bool_decide (sz.1 < 0 ∨ sz.2 < 0)
  then Raise (Exn ValueError "Width and height must be >= 0")
  else Return {| size := sz; data := replicate (Z.to_nat (sz.1 * sz.2)) color |}.

(** *** Paste with a mask *)

(** The macros [DIV255] and [BLEND] of libImaging; the result of [BLEND] is
    stored in a [UINT8]. *)
Definition DIV255 (a : Z) : Z :=
  let tmp := a + 128 in
  Z.shiftr (Z.shiftr tmp 8 + tmp) 8.

Definition BLEND (mask in1 in2 : Z) : Z :=
  Z.land (DIV255 (in1 * (255 - mask) + in2 * mask)) 255.

(** One pixel of [paste_mask_RGBA]: every band of the destination is
    blended with the same band of the pasted image, weighted by the alpha
    band of the mask. *)
Definition blend_pixel (mask out inp : pixel) : pixel :=
  let m := alpha mask in
  (BLEND m (red out) (red inp), BLEND m (green out) (green inp),
   BLEND m (blue out) (blue inp), BLEND m (alpha out) (alpha inp)).

(** [self.paste(im, (dx, dy), mask)]: the box is the whole of [im] placed at
    [(dx, dy)], clipped to [self]; pixels of [self] outside it are kept. *)
Definition paste (self im : Image) (box : Z * Z) (mask : Image) : Image :=
  let '(dx, dy) := box in
  {| size := size self;
     data := imap (λ i out,
       let ox := Z.of_nat i `mod` width self in
       let oy := Z.of_nat i `div` width self in
       match getpixel im (ox - dx) (oy - dy),
             getpixel mask (ox - dx) (oy - dy) with
       | Some inp, Some m => blend_pixel m out inp
       | _, _ => out
       end) (data self) |}.

(** *** The size of a thumbnail *)

(** Python's [a / b] on numbers. *)
Definition truediv (a b : Q) : result Q :=
  if Qeq_bool b 0
  then Raise (Exn ZeroDivisionError "division by zero")
  else Return (a / b)%Q.

(** Python's [min(a, b, key=key)] on keys that are floats.  Where the two
    keys differ as exact rationals the smaller one wins.  Where they are
    equal as rationals the rounding of the two floats decides: [tie] says
    whether the key of [b] comes out smaller; otherwise [min] keeps [a],
    the first. *)
Definition min_by (tie : bool) (a b : Z) (key : Z → Q) : Z :=
  if Qeq_bool (key a) (key b) then (if tie then b else a)
  else if Qle_bool (key a) (key b) then a else b.

(** [round_aspect] of [Image.thumbnail]. *)
Definition round_aspect (tie : bool) (number : Q) (key : Z → Q) : Z :=
  Z.max (min_by tie (Qfloor number) (Qceiling number) key) 1.

(** [preserve_aspect_ratio] of [Image.thumbnail]: [None] when the image
    already fits in the requested box.  [tie] is how the rounding of the
    floats settles two equally close candidates (see [min_by]). *)
Definition preserve_aspect_ratio (tie : bool) (self : Image)
    (provided_size : Z * Z) : result (option (Z * Z)) :=
  let '(x, y) := provided_size in
  if bool_decide (x >= width self ∧ y >= height self) then Return None
  else
    aspect ← truediv (inject_Z (width self)) (inject_Z (height self));
    r ← truediv (inject_Z x) (inject_Z y);
    if Qle_bool aspect r then
      let x' := round_aspect tie (inject_Z y * aspect)
                  (λ n, Qabs (aspect - inject_Z n / inject_Z y)) in
      Return (Some (x', y))
    else
      q ← truediv (inject_Z x) aspect;
      let y' := round_aspect tie q
                  (λ n, if n =? 0 then 0%Q
                        else Qabs (aspect - inject_Z x / inject_Z n)) in
      Return (Some (x, y')).

(** The value of both [Image.Resampling.LANCZOS] and [Image.LANCZOS]. *)
Definition LANCZOS : Z := 1.

End PIL.
Import PIL.

(** ** The preset table *)

Definition PRESETS : gmap string (Z * Z) :=
  {[ "Square (1:1) 1080×1080" := (1080, 1080);
     "Portrait (4:5) 1080×1350" := (1080, 1350);
     "Landscape (16:9) 1080×606" := (1080, 606) ]}.

(** [d[key]] on a dictionary. *)
Definition getitem {V} (d : gmap string V) (key : string) : result V :=
  match d !! key with
  | Some v => Return v
  | None => Raise (Exn KeyError key)
  end.

(** [d.get(key, dflt)] on a dictionary. *)
Definition dict_get {V} (d : gmap string V) (key : string) (dflt : V) : V :=
  default dflt (d !! key).

(** The Tk string variables of [main]. *)
Record TkVars := {
  input_var : string;
  output_var : string;
  width_var : string;
  height_var : string;
  preset_var : string
}.

(** The variables as [main] creates them. *)
Definition initial_vars : TkVars :=
  {| input_var := EmptyString; output_var := EmptyString;
     width_var := EmptyString; height_var := EmptyString;
     preset_var := "Portrait (4:5) 1080×1350" |}.

(** The pair that [on_preset_change] unpacks into [w, h]. *)
Definition preset_dimensions (label : string) : result (Z * Z) :=
  dflt ← getitem PRESETS "Portrait (4:5) 1080×1350";
  mret (dict_get PRESETS label dflt).

Definition on_preset_change (v : TkVars) : result TkVars :=
  '(w, h) ← preset_dimensions (preset_var v);
  mret {| input_var := input_var v; output_var := output_var v;
          width_var := pretty w; height_var := pretty h;
          preset_var := preset_var v |}.

(** ** The transform *)

(** What the script finds around it: the storage with its files, and the
    installed Pillow. *)
Class Platform (Storage : Type) := {
  (** [Image.open(path).convert("RGBA")]: the decoded raster, or the
      exception of the operating system or of the decoder.  Reading leaves
      the storage as it is. *)
  Image_open : Storage → string → result Image;
  (** [canvas.save(path, format="PNG")]: the storage afterwards, and the
      exception when encoding or writing fails. *)
  Image_save : Storage → string → Image → Storage * result unit;
  (** Whether the installed Pillow has the [Image.Resampling] enumeration
      (Pillow 9.1 and later). *)
  has_Resampling : bool;
  (** The pixels [self.resize(size, resample)] computes. *)
  resize_data : Z → Image → Z * Z → list pixel;
  (** For a source size and a requested size: whether, when the floor and
      the ceiling in [round_aspect] are equally close as exact rationals,
      the rounding of the floats lets the ceiling win. *)
  ceiling_wins_tie : Z * Z → Z * Z → bool
}.

Section Transform.

Context `{Platform Storage}.

(** [Image.Resampling.LANCZOS]. *)
Definition Resampling_LANCZOS : result Z :=
  if has_Resampling then Return LANCZOS
  else Raise (Exn AttributeError "module 'PIL.Image' has no attribute 'Resampling'").

(** [self.resize(size, resample, reducing_gap=2.0)], as [thumbnail] calls
    it.  Pillow divides by each side in the arithmetic of the reducing gap
    before it resamples, so a side of 0 ends there; a negative side is
    refused by the resampling itself. *)
Definition resize (self : Image) (sz : Z * Z) (resample : Z) : result Image :=
  if bool_decide (sz.1 = 0 ∨ sz.2 = 0)
  then Raise (Exn ZeroDivisionError "division by zero")
  else if bool_decide (sz.1 < 1 ∨ sz.2 < 1)
  then Raise (Exn ValueError "height and width must be > 0")
  else Return {| size := sz; data := resize_data resample self sz |}.

(** [self.thumbnail(size, resample)]; the image is changed in place in
    Python, the changed image is returned here.  An image converted to RGBA
    has no draft mode, so Pillow goes on to [load] and computes the size a
    second time, with the same result. *)
Definition thumbnail (self : Image) (sz : Z * Z) (resample : Z) : result Image :=
  new_size ← preserve_aspect_ratio (ceiling_wins_tie (size self) sz) self sz;
  match new_size with
  | None => Return self
  | Some sz' =>
      if bool_decide (size self ≠ sz') then resize self sz' resample
      else Return self
  end.

(** Lines 61-67: the nested [try] that picks the name of the filter. *)
Definition thumbnail_lanczos (img : Image) (width height : Z) : result Image :=
  match (f ← Resampling_LANCZOS; thumbnail img (width, height) f) with
  | Raise e =>
      if bool_decide (exn_cls e = AttributeError)
      then thumbnail img (width, height) LANCZOS
      else Raise e
  | Return img' => Return img'
  end.

(** Lines 73-74: the centred paste coordinates. *)
Definition paste_position (img : Image) (width height : Z) : Z * Z :=
  ((width - PIL.width img) `div` 2, (height - PIL.height img) `div` 2).

(** Lines 61-77: from the opened image to the canvas handed to [save]. *)
Definition fit_and_pad (img : Image) (width height : Z) : result Image :=
  img ← thumbnail_lanczos img width height;
  canvas ← Image_new (width, height) (0, 0, 0, 0);
  let '(x, y) := paste_position img width height in
  Return (paste canvas img (x, y) img).

(** The body of the [try] of [resize_with_transparent_bg]. *)
Definition resize_body (st : Storage) (input_path output_path : string)
    (width height : Z) : Storage * result bool :=
  match Image_open st input_path with
  | Raise e => (st, Raise e)
  | Return img =>
      match fit_and_pad img width height with
      | Raise e => (st, Raise e)
      | Return canvas =>
          let '(st', r) := Image_save st output_path canvas in
          (st', _ ← r; Return true)
      end
  end.

(** The three [except] clauses, in their order. *)
Definition handle (input_path output_path : string) (e : exn) : exn :=
  match exn_cls e with
  | FileNotFoundError =>
      Exn FileNotFoundError ("Could not find input file: " +:+ input_path)
  | PermissionError =>
      Exn PermissionError ("Permission denied when saving to: " +:+ output_path)
  | _ => Exn Exception ("Error processing image: " +:+ exn_str e)
  end.

Definition resize_with_transparent_bg (st : Storage)
    (input_path output_path : string) (width height : Z)
    : Storage * result bool :=
  match resize_body st input_path output_path width height with
  | (st', Raise e) => (st', Raise (handle input_path output_path e))
  | (st', Return b) => (st', Return b)
  end.

End Transform.

(** ** A small storage and a stand-in filter, to run the transform on *)

Module Disk.

(** What a path holds: a file that decodes to a raster, or one on which
    [Image.open(...).convert("RGBA")] raises. *)
Inductive entry :=
  | Picture (im : Image)
  | Broken (e : exn).

Record disk := {
  files : gmap string entry;
  (** paths that cannot be opened for writing *)
  read_only : gset string;
  (** whether the device has room for one more file *)
  room : bool
}.

Definition open (d : disk) (path : string) : result Image :=
  match files d !! path with
  | None =>
      Raise (Exn FileNotFoundError
               ("[Errno 2] No such file or directory: '" +:+ path +:+ "'"))
  | Some (Picture im) => Return im
  | Some (Broken e) => Raise e
  end.

(** Writing truncates the file first; when the device is full the
    truncated file stays. *)
Definition save (d : disk) (path : string) (im : Image) : disk * result unit :=
  if bool_decide (path ∈ read_only d) then
    (d, Raise (Exn PermissionError
                 ("[Errno 13] Permission denied: '" +:+ path +:+ "'")))
  else if room d then
    ({| files := <[path := Picture im]> (files d);
        read_only := read_only d; room := room d |}, Return ())
  else
    ({| files := <[path := Broken (Exn OSError "image file is truncated")]> (files d);
        read_only := read_only d; room := room d |},
     Raise (Exn OSError "[Errno 28] No space left on device")).

(** A filter that paints the whole thumbnail with the first pixel. *)
Definition flat (_ : Z) (im : Image) (sz : Z * Z) : list pixel :=
  replicate (Z.to_nat (sz.1 * sz.2)) (default transparent (head (data im))).

(** A raster of one colour. *)
Definition plain (w h : Z) (p : pixel) : Image :=
  {| size := (w, h); data := replicate (Z.to_nat (w * h)) p |}.

Global Instance platform : Platform disk :=
  {| Image_open := open; Image_save := save;
     has_Resampling := true; resize_data := flat;
     ceiling_wins_tie := λ _ _, true |}.

(** An opaque picture of 4 by 2 pixels. *)
Definition photo : Image := plain 4 2 (200, 100, 50, 255).

(** A storage with a good picture, a truncated file, a file that may not
    be read, an older output, and a path that may not be written. *)
Definition shelf : disk :=
  {| files :=
       {[ "photo.png" := Picture photo;
          "torn.png" :=
            Broken (Exn OSError "image file is truncated (41 bytes not processed)");
          "locked.png" :=
            Broken (Exn PermissionError "[Errno 13] Permission denied: 'locked.png'");
          "old.png" := Picture photo ]};
     read_only := {[ "vault/out.png" ]};
     room := true |}.

(** The same storage on a device without room. *)
Definition full_shelf : disk :=
  {| files := files shelf; read_only := read_only shelf; room := false |}.

End Disk.

(** ** Failures that name a path *)

(** [path] occurs in the message [msg]. *)
Definition names (path msg : string) : bool :=
  bool_decide (is_Some (index 0 path msg)).

(** The call ended in an exception whose message names [path]. *)
Definition fails_naming {A} (path : string) (r : result A) : Prop :=
  ∃ e, r = Raise e ∧ names path (exn_str e) = true.

(** ** The scaled size as the specification words it *)

(** The scale factor [s = min(target_width / src_width,
    target_height / src_height, 1.0)]. *)
Definition spec_scale (src_width src_height target_width target_height : Z) : Q :=
  Qmin (Qmin (inject_Z target_width / inject_Z src_width)
             (inject_Z target_height / inject_Z src_height)) 1.

(** [r] is [q] rounded to a nearest integer, whichever way halves go. *)
Definition rounds_to (q : Q) (r : Z) : Prop :=
  (Qabs (q - inject_Z r) <= 1 # 2)%Q.

(** [(w, h)] is [round(src_width * s)] by [round(src_height * s)], clamped
    to the target box. *)
Definition spec_scaled_size (src_width src_height target_width target_height : Z)
    (w h : Z) : Prop :=
  let s := spec_scale src_width src_height target_width target_height in
  ∃ rw rh,
    rounds_to (inject_Z src_width * s) rw ∧
    rounds_to (inject_Z src_height * s) rh ∧
    w = Z.min target_width rw ∧ h = Z.min target_height rh.

(** How far the aspect ratio of a [w] by [h] raster is from that of a
    [src_width] by [src_height] source. *)
Definition aspect_error (src_width src_height w h : Z) : Q :=
  Qabs (inject_Z src_width / inject_Z src_height - inject_Z w / inject_Z h).

(** ** Sample rasters *)

Module Samples.

(** A wide opaque strip. *)
Definition ribbon : Image := Disk.plain 2000 100 (0, 0, 0, 255).

(** Two by two pixels, three of them opaque and the last one, at (1, 1),
    fully transparent. *)
Definition speck : Image :=
  {| size := (2, 2);
     data := [(200, 100, 50, 255); (200, 100, 50, 255);
              (200, 100, 50, 255); (0, 0, 0, 0)] |}.

(** Two pixels side by side: one fully transparent, one opaque. *)
Definition pair : Image :=
  {| size := (2, 1); data := [(9, 9, 9, 0); (200, 100, 50, 255)] |}.

End Samples.

(** ** The rest of the form: the file dialogs, the Resize button, the window *)

(** *** Strings *)

(** Strings hold the UTF-8 bytes of the text.  [lower_ascii] lowers one
    ASCII capital. *)
Definition lower_ascii (c : ascii) : ascii :=
  let n := nat_of_ascii c in
  if ((65 <=? n) && (n <=? 90))%nat then ascii_of_nat (n + 32) else c.

(** [s.lower()], as far as the test [endswith('.png')] can tell: the ASCII
    capitals are lowered; no character outside ASCII has a lower case that
    contains one of [.], [p], [n], [g]. *)
Fixpoint lower (s : string) : string :=
  match s with
  | EmptyString => EmptyString
  | String c s' => String (lower_ascii c) (lower s')
  end.

(** [s.endswith(suffix)]: [suffix] is one of the tails of [s]. *)
Fixpoint endswith (s suffix : string) : bool :=
  String.eqb s suffix ||
  match s with
  | EmptyString => false
  | String _ s' => endswith s' suffix
  end.

(** [sep in s], for a separator of one character. *)
Fixpoint contains_char (sep : ascii) (s : string) : bool :=
  match s with
  | EmptyString => false
  | String c s' => bool_decide (c = sep) || contains_char sep s'
  end.

(** The two sides of the last [sep] in [s], when there is one. *)
Fixpoint split_at_last (sep : ascii) (s : string) : option (string * string) :=
  match s with
  | EmptyString => None
  | String c s' =>
      match split_at_last sep s' with
      | Some (before, after) => Some (String c before, after)
      | None => if bool_decide (c = sep) then Some (EmptyString, s') else None
      end
  end.

(** [s.rsplit(sep, 1)], for a separator of one character: the two sides of
    the last [sep], or [s] alone. *)
Definition rsplit1 (s : string) (sep : ascii) : list string :=
  match split_at_last sep s with
  | Some (before, after) => [before; after]
  | None => [s]
  end.

(** *** The file dialogs *)

(** [input_var.set(path)] and [output_var.set(path)]. *)
Definition set_input_var (v : TkVars) (path : string) : TkVars :=
  {| input_var := path; output_var := output_var v;
     width_var := width_var v; height_var := height_var v;
     preset_var := preset_var v |}.

Definition set_output_var (v : TkVars) (path : string) : TkVars :=
  {| input_var := input_var v; output_var := path;
     width_var := width_var v; height_var := height_var v;
     preset_var := preset_var v |}.

(** [select_input], given the answer [path] of [askopenfilename] (empty
    when the dialog is cancelled). *)
Definition select_input (path : string) (v : TkVars) : TkVars :=
  if bool_decide (path ≠ EmptyString) then
    let v := set_input_var v path in
    if bool_decide (output_var v = EmptyString) then
      let output_path := hd EmptyString (rsplit1 path ".") +:+ ".png" in
      set_output_var v output_path
    else v
  else v.

(** [select_output], given the answer [path] of [asksaveasfilename]. *)
Definition select_output (path : string) (v : TkVars) : TkVars :=
  if bool_decide (path ≠ EmptyString) then
    let path := if endswith (lower path) ".png" then path else path +:+ ".png" in
    set_output_var v path
  else v.

(** *** The Resize button *)

(** The two builtins [run_conversion] applies to the text of the
    variables: [s.strip()] and [int(s)]. *)
Class Python := {
  str_strip : string → string;
  int_of_str : string → result Z
}.

(** A call of [messagebox.showerror] or [messagebox.showinfo]. *)
Inductive messagebox :=
  | showerror (title message : string)
  | showinfo (title message : string).

(** The form: its variables, the text of the status bar, and the message
    boxes shown so far. *)
Record Form := {
  vars : TkVars;
  status_label : string;
  shown : list messagebox
}.

Definition show (f : Form) (m : messagebox) : Form :=
  {| vars := vars f; status_label := status_label f; shown := shown f ++ [m] |}.

(** [status_label.config(text=text)]. *)
Definition set_status (f : Form) (text : string) : Form :=
  {| vars := vars f; status_label := text; shown := shown f |}.

Definition newline : string := String "010"%char EmptyString.

(** The text of the success box. *)
Definition success_message (out : string) (w h : Z) : string :=
  "Image successfully resized!" +:+ newline +:+ newline +:+
  "Saved: " +:+ out +:+ newline +:+
  "Size: " +:+ pretty w +:+ "×" +:+ pretty h +:+ "px".

Section Form.

Context `{Python} `{Platform Storage}.

(** Lines 148-152: both dimensions read and checked. *)
Definition read_dimensions (f : Form) : result (Z * Z) :=
  w ← int_of_str (width_var (vars f));
  h ← int_of_str (height_var (vars f));
  if bool_decide (w ≤ 0 ∨ h ≤ 0)
  then Raise (Exn ValueError "Dimensions must be positive")
  else Return (w, h).

(** [run_conversion]: the storage and the form afterwards, or the
    exception that escapes the callback. *)
Definition run_conversion (st : Storage) (f : Form) : result (Storage * Form) :=
  let inp := str_strip (input_var (vars f)) in
  let out := str_strip (output_var (vars f)) in
  if bool_decide (inp = EmptyString ∨ out = EmptyString) then
    Return (st, show f (showerror "Missing Paths"
                          "Please select both input and output files."))
  else
    match read_dimensions f with
    | Raise e =>
        if bool_decide (exn_cls e = ValueError) then
          Return (st, show f (showerror "Invalid Dimensions"
                                "Width and height must be positive integers."))
        else Raise e
    | Return (w, h) =>
        let f := set_status f "Processing..." in
        match resize_with_transparent_bg st inp out w h with
        | (st', Return _) =>
            Return (st', show (set_status f "Ready")
                           (showinfo "Success" (success_message out w h)))
        | (st', Raise e) =>
            Return (st', show (set_status f "Error")
                           (showerror "Error" (exn_str e)))
        end
    end.

End Form.

(** *** The window *)

(** Lines 214-215: where [main] puts the window of size [width] by
    [height] on the screen. *)
Definition window_origin (screenwidth screenheight width height : Z) : Z * Z :=
  (screenwidth `div` 2 - width `div` 2, screenheight `div` 2 - height `div` 2).

(** *** Stand-ins for the builtins, to run the form on *)

Module Session.

Fixpoint lstrip (s : string) : string :=
  match s with
  | String " " s' => lstrip s'
  | _ => s
  end.

(** Strips the spaces at both ends. *)
Definition strip (s : string) : string :=
  String.rev (lstrip (String.rev (lstrip s))).

Definition digit (c : ascii) : option Z :=
  let n := nat_of_ascii c in
  if ((48 <=? n) && (n <=? 57))%nat then Some (Z.of_nat n - 48) else None.

Fixpoint digits (acc : Z) (s : string) : option Z :=
  match s with
  | EmptyString => Some acc
  | String c s' => d ← digit c; digits (10 * acc + d) s'
  end.

(** Reads a decimal numeral with an optional minus sign. *)
Definition int (s : string) : result Z :=
  let bad := Raise (Exn ValueError ("invalid literal for int() with base 10: '" +:+ s +:+ "'")) in
  match s with
  | EmptyString => bad
  | String "-" (String c s') => from_option (λ n, Return (- n)) bad (digits 0 (String c s'))
  | String "-" EmptyString => bad
  | _ => from_option Return bad (digits 0 s)
  end.

Global Instance python : Python := {| str_strip := strip; int_of_str := int |}.

(** A form with the two paths and the two dimensions filled in, the status
    bar as [main] creates it and no message box shown yet. *)
Definition form (inp out w h : string) : Form :=
  {| vars := {| input_var := inp; output_var := out;
                width_var := w; height_var := h;
                preset_var := "Portrait (4:5) 1080×1350" |};
     status_label := "Ready";
     shown := [] |}.

End Session.

(** * Properties *)

(** ** Fallible computations and rationals *)

Lemma bind_Return {A B} (a : A) (f : A → result B) : Return a ≫= f = f a.
Proof. reflexivity. Qed.

Lemma bind_Raise {A B} (e : exn) (f : A → result B) : Raise e ≫= f = Raise e.
Proof. reflexivity. Qed.

Lemma inject_Z_pos (z : Z) : 0 < z → (0 < inject_Z z)%Q.
Proof. intros H. change 0%Q with (inject_Z 0). by rewrite <- Zlt_Qlt. Qed.

Lemma truediv_nonzero (a b : Q) : ¬ (b == 0)%Q → truediv a b = Return (a / b)%Q.
Proof.
  intros Hb. unfold truediv.
  destruct (Qeq_bool b 0) eqn:E; [|done].
  apply Qeq_bool_eq in E. contradiction.
Qed.

Lemma truediv_pos (a b : Q) : (0 < b)%Q → truediv a b = Return (a / b)%Q.
Proof.
  intros Hb. apply truediv_nonzero. intros E. rewrite E in Hb.
  by apply Qlt_irrefl in Hb.
Qed.

Lemma min_by_cases tie (a b : Z) key :
  min_by tie a b key = a ∨ min_by tie a b key = b.
Proof.
  unfold min_by.
  destruct (Qeq_bool _ _); [destruct tie; auto | destruct (Qle_bool _ _); auto].
Qed.

(** The candidate [min_by] takes has a key that is at most either key. *)
Lemma min_by_least tie (a b : Z) key :
  (key (min_by tie a b key) <= key a)%Q ∧
  (key (min_by tie a b key) <= key b)%Q.
Proof.
  unfold min_by. destruct (Qeq_bool (key a) (key b)) eqn:Eeq.
  - apply Qeq_bool_eq in Eeq.
    destruct tie; split; try apply Qle_refl; rewrite Eeq; apply Qle_refl.
  - destruct (Qle_bool (key a) (key b)) eqn:Ele.
    + apply Qle_bool_iff in Ele. split; [apply Qle_refl | done].
    + split; [|apply Qle_refl].
      apply Qlt_le_weak, Qnot_le_lt. intros Hle.
      apply Qle_bool_iff in Hle. congruence.
Qed.

Lemma round_aspect_bounds tie (number : Q) key (bound : Z) :
  1 ≤ bound → (number <= inject_Z bound)%Q →
  1 ≤ round_aspect tie number key ≤ bound.
Proof.
  intros Hb Hn. unfold round_aspect.
  assert (Qceiling number ≤ bound) as Hc.
  { rewrite <- (Qceiling_Z bound). by apply Qceiling_resp_le. }
  assert (Qfloor number ≤ Qceiling number) as Hf.
  { rewrite Zle_Qle. apply Qle_floor_ceiling. }
  destruct (min_by_cases tie (Qfloor number) (Qceiling number) key)
    as [-> | ->]; lia.
Qed.

Lemma round_aspect_cases tie (number : Q) key :
  round_aspect tie number key = Z.max 1 (Qfloor number) ∨
  round_aspect tie number key = Z.max 1 (Qceiling number).
Proof.
  unfold round_aspect.
  destruct (min_by_cases tie (Qfloor number) (Qceiling number) key) as [-> | ->];
    rewrite Z.max_comm; auto.
Qed.

Lemma Qdiv_le_cross (w h x y : Z) :
  0 < h → 0 < y →
  (inject_Z w / inject_Z h <= inject_Z x / inject_Z y)%Q ↔ w * y ≤ x * h.
Proof.
  intros Hh Hy.
  destruct h as [|h|h]; try lia. destruct y as [|y|y]; try lia.
  unfold Qle, Qdiv, Qmult, Qinv, inject_Z; simpl.
  rewrite !Z.mul_1_r. lia.
Qed.

Lemma Qmul_div_assoc (a b c : Z) :
  0 < c →
  (inject_Z a * (inject_Z b / inject_Z c) == inject_Z (a * b) / inject_Z c)%Q.
Proof.
  intros Hc. rewrite inject_Z_mult. field.
  intros E. apply inject_Z_pos in Hc. rewrite E in Hc. by apply Qlt_irrefl in Hc.
Qed.

Lemma Qdiv_div_swap (a b c : Z) :
  0 < b → 0 < c →
  (inject_Z a / (inject_Z b / inject_Z c) == inject_Z (a * c) / inject_Z b)%Q.
Proof.
  intros Hb Hc. rewrite inject_Z_mult. field.
  split; intros E.
  - apply inject_Z_pos in Hb. rewrite E in Hb. by apply Qlt_irrefl in Hb.
  - apply inject_Z_pos in Hc. rewrite E in Hc. by apply Qlt_irrefl in Hc.
Qed.

Lemma Qdiv_le_inject (a b c : Z) :
  0 < b → a ≤ c * b → (inject_Z a / inject_Z b <= inject_Z c)%Q.
Proof.
  intros Hb H. apply Qle_shift_div_r; [by apply inject_Z_pos|].
  rewrite <- inject_Z_mult. by rewrite <- Zle_Qle.
Qed.

Lemma Qdiv_pos (a b : Z) : 0 < a → 0 < b → (0 < inject_Z a / inject_Z b)%Q.
Proof.
  intros Ha Hb. apply Qlt_shift_div_l; [by apply inject_Z_pos|].
  rewrite Qmult_0_l. by apply inject_Z_pos.
Qed.

(** What [preserve_aspect_ratio] returns for an image that does not fit. *)
Lemma preserve_aspect_ratio_shrinks (tie : bool) (self : Image) (x y : Z) :
  0 < width self → 0 < height self → 0 < x → 0 < y →
  ¬ (x >= width self ∧ y >= height self) →
  ∃ x' y', preserve_aspect_ratio tie self (x, y) = Return (Some (x', y')) ∧
           1 ≤ x' ≤ x ∧ 1 ≤ y' ≤ y ∧
           (x' < width self ∨ y' < height self).
Proof.
  intros Hw Hh Hx Hy Hfit. unfold preserve_aspect_ratio.
  rewrite bool_decide_eq_false_2 by done.
  rewrite (truediv_pos (inject_Z (width self))) by (by apply inject_Z_pos).
  rewrite bind_Return.
  rewrite (truediv_pos (inject_Z x) (inject_Z y)) by (by apply inject_Z_pos).
  rewrite bind_Return.
  destruct (Qle_bool _ _) eqn:E.
  - apply Qle_bool_iff in E.
    apply (Qdiv_le_cross (width self) (height self) x y Hh Hy) in E.
    eexists _, _. split; [reflexivity|].
    assert (1 ≤ round_aspect tie (inject_Z y * (inject_Z (width self) / inject_Z (height self)))
                 (λ n, Qabs (inject_Z (width self) / inject_Z (height self)
                             - inject_Z n / inject_Z y)) ≤ x) as Hb.
    { apply round_aspect_bounds; [lia|].
      rewrite Qmul_div_assoc by done. apply Qdiv_le_inject; [done|]. nia. }
    split; [done|]. split; [lia|]. nia.
  - assert (¬ (width self * y ≤ x * height self)) as E'.
    { intros H. apply (Qdiv_le_cross _ _ _ _ Hh Hy), Qle_bool_iff in H. congruence. }
    rewrite truediv_pos by (by apply Qdiv_pos).
    rewrite bind_Return.
    eexists _, _. split; [reflexivity|].
    assert (1 ≤ round_aspect tie (inject_Z x / (inject_Z (width self) / inject_Z (height self)))
                 (λ n, if n =? 0 then 0%Q
                       else Qabs (inject_Z (width self) / inject_Z (height self)
                                  - inject_Z x / inject_Z n)) ≤ y) as Hb.
    { apply round_aspect_bounds; [lia|].
      rewrite Qdiv_div_swap by done. apply Qdiv_le_inject; [done|]. nia. }
    split; [lia|]. split; [done|]. nia.
Qed.

(** ** The scale factor *)

Lemma inject_Z_nonzero (z : Z) : 0 < z → ¬ (inject_Z z == 0)%Q.
Proof.
  intros Hz E. apply inject_Z_pos in Hz. rewrite E in Hz.
  by apply Qlt_irrefl in Hz.
Qed.

Lemma Qdiv_ge_1 (a b : Z) : 0 < b → b ≤ a → (1 <= inject_Z a / inject_Z b)%Q.
Proof.
  intros Hb Hab. apply Qle_shift_div_l; [by apply inject_Z_pos|].
  rewrite Qmult_1_l. by rewrite <- Zle_Qle.
Qed.

Lemma Qdiv_le_1 (a b : Z) : 0 < b → a ≤ b → (inject_Z a / inject_Z b <= 1)%Q.
Proof.
  intros Hb Hab. apply Qle_shift_div_r; [by apply inject_Z_pos|].
  rewrite Qmult_1_l. by rewrite <- Zle_Qle.
Qed.

Lemma spec_scale_fits (sw sh tw th : Z) :
  0 < sw → 0 < sh → sw ≤ tw → sh ≤ th → (spec_scale sw sh tw th == 1)%Q.
Proof.
  intros Hsw Hsh Hw Hh. unfold spec_scale.
  apply Q.min_r. apply Q.min_glb; by apply Qdiv_ge_1.
Qed.

Lemma spec_scale_width_bound (sw sh tw th : Z) :
  0 < sw → 0 < sh → tw * sh ≤ th * sw → tw ≤ sw →
  (spec_scale sw sh tw th == inject_Z tw / inject_Z sw)%Q.
Proof.
  intros Hsw Hsh Hc Hw. unfold spec_scale.
  rewrite Q.min_l.
  - apply Q.min_l. by apply Qdiv_le_cross.
  - rewrite Q.min_l by (by apply Qdiv_le_cross). by apply Qdiv_le_1.
Qed.

Lemma spec_scale_height_bound (sw sh tw th : Z) :
  0 < sw → 0 < sh → th * sw ≤ tw * sh → th ≤ sh →
  (spec_scale sw sh tw th == inject_Z th / inject_Z sh)%Q.
Proof.
  intros Hsw Hsh Hc Hh. unfold spec_scale.
  rewrite Q.min_l.
  - apply Q.min_r. by apply Qdiv_le_cross.
  - rewrite Q.min_r by (by apply Qdiv_le_cross). by apply Qdiv_le_1.
Qed.

(** For an image that does not fit, each side of the size that
    [preserve_aspect_ratio] returns is the source side times the scale
    factor, rounded down or up, and at least 1. *)
Lemma preserve_aspect_ratio_scaled (tie : bool) (self : Image) (x y : Z) :
  0 < width self → 0 < height self → 0 < x → 0 < y →
  ¬ (x >= width self ∧ y >= height self) →
  ∃ x' y', preserve_aspect_ratio tie self (x, y) = Return (Some (x', y')) ∧
    let s := spec_scale (width self) (height self) x y in
    (x' = Z.max 1 (Qfloor (inject_Z (width self) * s)) ∨
     x' = Z.max 1 (Qceiling (inject_Z (width self) * s))) ∧
    (y' = Z.max 1 (Qfloor (inject_Z (height self) * s)) ∨
     y' = Z.max 1 (Qceiling (inject_Z (height self) * s))).
Proof.
  intros Hw Hh Hx Hy Hfit. unfold preserve_aspect_ratio.
  pose proof (inject_Z_nonzero _ Hw) as Hw0.
  pose proof (inject_Z_nonzero _ Hh) as Hh0.
  rewrite bool_decide_eq_false_2 by done.
  rewrite (truediv_pos (inject_Z (width self))) by (by apply inject_Z_pos).
  rewrite bind_Return.
  rewrite (truediv_pos (inject_Z x) (inject_Z y)) by (by apply inject_Z_pos).
  rewrite bind_Return.
  destruct (Qle_bool _ _) eqn:E.
  - apply Qle_bool_iff in E.
    apply (Qdiv_le_cross (width self) (height self) x y Hh Hy) in E.
    assert (y ≤ height self) as Hyh by nia.
    eexists _, _. split; [reflexivity|]. cbv zeta.
    pose proof (spec_scale_height_bound (width self) (height self) x y
                  Hw Hh ltac:(nia) Hyh) as Hs.
    split.
    + rewrite (Qfloor_comp _ (inject_Z y * (inject_Z (width self) / inject_Z (height self))))
        by (rewrite Hs; field; done).
      rewrite (Qceiling_comp (_ * spec_scale _ _ _ _)
                 (inject_Z y * (inject_Z (width self) / inject_Z (height self))))
        by (rewrite Hs; field; done).
      apply round_aspect_cases.
    + left.
      rewrite (Qfloor_comp _ (inject_Z y)) by (rewrite Hs; field; done).
      rewrite Qfloor_Z. lia.
  - assert (¬ (width self * y ≤ x * height self)) as E'.
    { intros Hle. apply (Qdiv_le_cross _ _ _ _ Hh Hy), Qle_bool_iff in Hle. congruence. }
    assert (x ≤ width self) as Hxw by nia.
    rewrite truediv_pos by (by apply Qdiv_pos).
    rewrite bind_Return.
    eexists _, _. split; [reflexivity|]. cbv zeta.
    pose proof (spec_scale_width_bound (width self) (height self) x y
                  Hw Hh ltac:(nia) Hxw) as Hs.
    split.
    + left.
      rewrite (Qfloor_comp _ (inject_Z x)) by (rewrite Hs; field; done).
      rewrite Qfloor_Z. lia.
    + rewrite (Qfloor_comp (_ * spec_scale _ _ _ _)
                 (inject_Z x / (inject_Z (width self) / inject_Z (height self))))
        by (rewrite Hs; field; done).
      rewrite (Qceiling_comp (_ * spec_scale _ _ _ _)
                 (inject_Z x / (inject_Z (width self) / inject_Z (height self))))
        by (rewrite Hs; field; done).
      apply round_aspect_cases.
Qed.

(** For an image that does not fit: the side bound by the box, and for the
    other side the candidate [round_aspect] takes, whose key is at most the
    key of either candidate. *)
Lemma preserve_aspect_ratio_closest (tie : bool) (self : Image) (x y : Z) :
  0 < width self → 0 < height self → 0 < x → 0 < y →
  ¬ (x >= width self ∧ y >= height self) →
  ∃ x' y', preserve_aspect_ratio tie self (x, y) = Return (Some (x', y')) ∧
    let s := spec_scale (width self) (height self) x y in
    (width self * y ≤ x * height self →
     y' = y ∧
     ∃ n, x' = Z.max n 1 ∧
       (n = Qfloor (inject_Z (width self) * s) ∨
        n = Qceiling (inject_Z (width self) * s)) ∧
       ∀ m, m = Qfloor (inject_Z (width self) * s) ∨
            m = Qceiling (inject_Z (width self) * s) →
         (aspect_error (width self) (height self) n y <=
          aspect_error (width self) (height self) m y)%Q) ∧
    (¬ width self * y ≤ x * height self →
     x' = x ∧
     ∃ n, y' = Z.max n 1 ∧
       (n = Qfloor (inject_Z (height self) * s) ∨
        n = Qceiling (inject_Z (height self) * s)) ∧
       ∀ m, m = Qfloor (inject_Z (height self) * s) ∨
            m = Qceiling (inject_Z (height self) * s) →
         ((if n =? 0 then 0 else aspect_error (width self) (height self) x n) <=
          (if m =? 0 then 0 else aspect_error (width self) (height self) x m))%Q).
Proof.
  intros Hw Hh Hx Hy Hfit. unfold preserve_aspect_ratio.
  pose proof (inject_Z_nonzero _ Hw) as Hw0.
  pose proof (inject_Z_nonzero _ Hh) as Hh0.
  rewrite bool_decide_eq_false_2 by done.
  rewrite (truediv_pos (inject_Z (width self))) by (by apply inject_Z_pos).
  rewrite bind_Return.
  rewrite (truediv_pos (inject_Z x) (inject_Z y)) by (by apply inject_Z_pos).
  rewrite bind_Return.
  destruct (Qle_bool _ _) eqn:E.
  - apply Qle_bool_iff in E.
    apply (Qdiv_le_cross (width self) (height self) x y Hh Hy) in E.
    assert (y ≤ height self) as Hyh by nia.
    eexists _, _. split; [reflexivity|]. cbv zeta.
    split; [intros _ | intros Hno; contradiction].
    split; [done|].
    pose proof (spec_scale_height_bound (width self) (height self) x y
                  Hw Hh ltac:(nia) Hyh) as Hs.
    set (number := (inject_Z y * (inject_Z (width self) / inject_Z (height self)))%Q).
    assert (Qfloor (inject_Z (width self) * spec_scale (width self) (height self) x y)
            = Qfloor number) as ->
      by (apply Qfloor_comp; unfold number; rewrite Hs; field; done).
    assert (Qceiling (inject_Z (width self) * spec_scale (width self) (height self) x y)
            = Qceiling number) as ->
      by (apply Qceiling_comp; unfold number; rewrite Hs; field; done).
    set (key := λ n : Z, Qabs (inject_Z (width self) / inject_Z (height self)
                               - inject_Z n / inject_Z y)).
    exists (min_by tie (Qfloor number) (Qceiling number) key).
    split; [done|]. split; [apply min_by_cases|].
    intros m [-> | ->]; apply (min_by_least tie _ _ key).
  - assert (¬ (width self * y ≤ x * height self)) as E'.
    { intros Hle. apply (Qdiv_le_cross _ _ _ _ Hh Hy), Qle_bool_iff in Hle.
      congruence. }
    assert (x ≤ width self) as Hxw by nia.
    rewrite truediv_pos by (by apply Qdiv_pos).
    rewrite bind_Return.
    eexists _, _. split; [reflexivity|]. cbv zeta.
    split; [intros Hyes; contradiction | intros _].
    split; [done|].
    pose proof (spec_scale_width_bound (width self) (height self) x y
                  Hw Hh ltac:(nia) Hxw) as Hs.
    set (number := (inject_Z x / (inject_Z (width self) / inject_Z (height self)))%Q).
    assert (Qfloor (inject_Z (height self) * spec_scale (width self) (height self) x y)
            = Qfloor number) as ->
      by (apply Qfloor_comp; unfold number; rewrite Hs; field; done).
    assert (Qceiling (inject_Z (height self) * spec_scale (width self) (height self) x y)
            = Qceiling number) as ->
      by (apply Qceiling_comp; unfold number; rewrite Hs; field; done).
    set (key := λ n : Z, if n =? 0 then 0%Q
                         else Qabs (inject_Z (width self) / inject_Z (height self)
                                    - inject_Z x / inject_Z n)).
    exists (min_by tie (Qfloor number) (Qceiling number) key).
    split; [done|]. split; [apply min_by_cases|].
    intros m [-> | ->]; apply (min_by_least tie _ _ key).
Qed.

(** ** Facts about rasters *)

Lemma size_paste (self im mask : Image) (box : Z * Z) :
  size (paste self im box mask) = size self.
Proof. by destruct box. Qed.

Lemma well_formed_paste (self im mask : Image) (box : Z * Z) :
  well_formed self → well_formed (paste self im box mask).
Proof.
  destruct box as [dx dy]. unfold well_formed, width, height. simpl.
  by rewrite length_imap.
Qed.

Lemma Image_new_Return (w h : Z) (color : pixel) :
  0 ≤ w → 0 ≤ h →
  Image_new (w, h) color =
    Return {| size := (w, h); data := replicate (Z.to_nat (w * h)) color |}.
Proof.
  intros Hw Hh. unfold Image_new. simpl.
  rewrite bool_decide_eq_false_2; [done | lia].
Qed.

Lemma index_in_range (w h x y : Z) :
  0 ≤ x < w → 0 ≤ y < h → (Z.to_nat (y * w + x) < Z.to_nat (w * h))%nat.
Proof. intros Hx Hy. apply Z2Nat.inj_lt; nia. Qed.

Lemma index_column (w x y : Z) :
  0 ≤ x < w → 0 ≤ y → Z.of_nat (Z.to_nat (y * w + x)) `mod` w = x.
Proof.
  intros Hx Hy. rewrite Z2Nat.id by nia.
  symmetry. apply (Z.mod_unique_pos _ _ y); lia.
Qed.

Lemma index_row (w x y : Z) :
  0 ≤ x < w → 0 ≤ y → Z.of_nat (Z.to_nat (y * w + x)) `div` w = y.
Proof.
  intros Hx Hy. rewrite Z2Nat.id by nia.
  symmetry. apply (Z.div_unique_pos _ _ y x); lia.
Qed.

Lemma getpixel_new (w h : Z) (color : pixel) (x y : Z) :
  0 ≤ x < w → 0 ≤ y < h →
  getpixel {| size := (w, h); data := replicate (Z.to_nat (w * h)) color |} x y
  = Some color.
Proof.
  intros Hx Hy. unfold getpixel, width, height. simpl.
  rewrite bool_decide_eq_true_2 by done.
  apply lookup_replicate_2. by apply index_in_range.
Qed.

Lemma getpixel_inv (im : Image) (x y : Z) (p : pixel) :
  getpixel im x y = Some p → 0 ≤ x < width im ∧ 0 ≤ y < height im.
Proof.
  unfold getpixel. case_bool_decide; [done | discriminate].
Qed.

(** A pixel of the result of [paste]: the blend where the pasted image and
    the mask have a pixel, the old pixel elsewhere. *)
Lemma getpixel_paste (self im mask : Image) (dx dy x y : Z) :
  0 ≤ x < width self → 0 ≤ y < height self →
  getpixel (paste self im (dx, dy) mask) x y =
    (λ out, match getpixel im (x - dx) (y - dy),
                  getpixel mask (x - dx) (y - dy) with
            | Some inp, Some m => blend_pixel m out inp
            | _, _ => out
            end) <$> getpixel self x y.
Proof.
  intros Hx Hy. unfold getpixel at 1 4. unfold width at 1 2, height at 1.
  simpl. fold (width self) (height self).
  rewrite !bool_decide_eq_true_2 by done.
  rewrite list_lookup_imap.
  rewrite index_column, index_row by lia. done.
Qed.

Lemma BLEND_mask_0_on_0 (inp : Z) : BLEND 0 0 inp = 0.
Proof. unfold BLEND. by rewrite Z.mul_0_r. Qed.

Lemma blend_transparent (m inp : pixel) :
  alpha m = 0 → blend_pixel m transparent inp = transparent.
Proof.
  intros Hm. unfold blend_pixel. rewrite Hm.
  unfold transparent, red, green, blue, alpha; simpl.
  by rewrite !BLEND_mask_0_on_0.
Qed.

(** The blend is exact at the two ends of the mask: mask 0 keeps the
    destination byte, mask 255 takes the pasted byte. *)
Lemma BLEND_ends (v : Z) :
  0 ≤ v ≤ 255 → (∀ inp, BLEND 0 v inp = v) ∧ (∀ out, BLEND 255 out v = v).
Proof.
  intros Hv.
  assert (forallb (λ n, let v := Z.of_nat n in
                        (BLEND 0 v 0 =? v) && (BLEND 255 0 v =? v))
                  (seq 0 256) = true) as Hall by (vm_compute; reflexivity).
  rewrite forallb_forall in Hall.
  specialize (Hall (Z.to_nat v)).
  rewrite Z2Nat.id in Hall by lia.
  destruct (andb_prop _ _ (Hall ltac:(apply in_seq; lia))) as [H0 H255].
  apply Z.eqb_eq in H0, H255.
  split; intros w; unfold BLEND in *.
  - by rewrite Z.mul_0_r, Z.add_0_r in *.
  - replace (255 - 255) with 0 by lia. by rewrite Z.mul_0_r, Z.add_0_l in *.
Qed.

(** Pasting an opaque pixel onto the transparent canvas copies it. *)
Lemma blend_opaque (p : pixel) :
  0 ≤ red p ≤ 255 → 0 ≤ green p ≤ 255 → 0 ≤ blue p ≤ 255 → alpha p = 255 →
  blend_pixel p transparent p = p.
Proof.
  destruct p as [[[r g] b] a]. unfold red, green, blue, alpha. simpl.
  intros Hr Hg Hb ->. unfold blend_pixel, red, green, blue, alpha. simpl.
  rewrite (proj2 (BLEND_ends r Hr)), (proj2 (BLEND_ends g Hg)),
    (proj2 (BLEND_ends b Hb)).
  by rewrite (proj2 (BLEND_ends 255 ltac:(lia))).
Qed.

Section TransformFacts.

Context `{Platform Storage}.

Lemma thumbnail_fits (self : Image) (x y resample : Z) :
  width self ≤ x → height self ≤ y →
  thumbnail self (x, y) resample = Return self.
Proof.
  intros Hx Hy. unfold thumbnail, preserve_aspect_ratio.
  rewrite bool_decide_eq_true_2 by lia. done.
Qed.

Lemma thumbnail_shrinks (self : Image) (x y resample : Z) :
  0 < width self → 0 < height self → 0 < x → 0 < y →
  ¬ (x >= width self ∧ y >= height self) →
  ∃ img, thumbnail self (x, y) resample = Return img ∧
         1 ≤ width img ≤ x ∧ 1 ≤ height img ≤ y.
Proof.
  intros Hw Hh Hx Hy Hfit.
  destruct (preserve_aspect_ratio_shrinks (ceiling_wins_tie (size self) (x, y))
            self x y Hw Hh Hx Hy Hfit)
    as (x' & y' & Hsz & Hx' & Hy' & Hlt).
  exists {| size := (x', y'); data := resize_data resample self (x', y') |}.
  split; [|done].
  unfold thumbnail. rewrite Hsz, bind_Return.
  rewrite bool_decide_eq_true_2.
  - unfold resize. simpl. by do 2 (rewrite bool_decide_eq_false_2 by lia).
  - intros E. unfold width, height in Hlt. rewrite E in Hlt. simpl in Hlt. lia.
Qed.

Lemma thumbnail_lanczos_Return (img img' : Image) (w h : Z) :
  thumbnail img (w, h) LANCZOS = Return img' →
  thumbnail_lanczos img w h = Return img'.
Proof.
  intros Ht. unfold thumbnail_lanczos, Resampling_LANCZOS.
  destruct has_Resampling.
  - by rewrite bind_Return, Ht.
  - by rewrite bind_Raise, bool_decide_eq_true_2.
Qed.

Lemma thumbnail_lanczos_fits (img : Image) (w h : Z) :
  width img ≤ w → height img ≤ h →
  thumbnail_lanczos img w h = Return img.
Proof.
  intros Hw Hh. by apply thumbnail_lanczos_Return, thumbnail_fits.
Qed.

(** For a source and a target of positive sizes the thumbnail step
    returns, and what it returns fits in the target box. *)
Lemma thumbnail_lanczos_total (img : Image) (w h : Z) :
  0 < width img → 0 < height img → 0 < w → 0 < h →
  ∃ scaled, thumbnail_lanczos img w h = Return scaled ∧
            1 ≤ width scaled ≤ w ∧ 1 ≤ height scaled ≤ h.
Proof.
  intros Hiw Hih Hw Hh.
  destruct (decide (w >= width img ∧ h >= height img)) as [Hfit | Hfit].
  - exists img. split; [|lia].
    apply thumbnail_lanczos_Return, thumbnail_fits; lia.
  - destruct (thumbnail_shrinks img w h LANCZOS Hiw Hih Hw Hh Hfit)
      as (scaled & Hs & Hb).
    exists scaled. split; [|done]. by apply thumbnail_lanczos_Return.
Qed.

Lemma fit_and_pad_Return (img scaled : Image) (w h : Z) :
  0 ≤ w → 0 ≤ h →
  thumbnail_lanczos img w h = Return scaled →
  fit_and_pad img w h =
    Return (paste {| size := (w, h);
                     data := replicate (Z.to_nat (w * h)) transparent |}
                  scaled (paste_position scaled w h) scaled).
Proof.
  intros Hw Hh Hs. unfold fit_and_pad.
  rewrite Hs, bind_Return, Image_new_Return, bind_Return by done.
  by destruct (paste_position scaled w h).
Qed.

Lemma paste_position_fits (img : Image) (w h : Z) :
  width img ≤ w → height img ≤ h →
  ∃ x y, paste_position img w h = (x, y) ∧
         0 ≤ x ∧ x + width img ≤ w ∧ 0 ≤ y ∧ y + height img ≤ h.
Proof.
  intros Hw Hh. eexists _, _. split; [reflexivity|].
  pose proof (Z.div_pos (w - width img) 2).
  pose proof (Z.div_pos (h - height img) 2).
  pose proof (Z.mul_div_le (w - width img) 2).
  pose proof (Z.mul_div_le (h - height img) 2).
  lia.
Qed.

(** The canvas that [fit_and_pad] returns, pixel by pixel. *)
Lemma fit_and_pad_pixels (img : Image) (w h : Z) :
  0 < PIL.width img → 0 < PIL.height img → 0 < w → 0 < h →
  ∃ scaled canvas x y,
    thumbnail_lanczos img w h = Return scaled ∧
    paste_position scaled w h = (x, y) ∧
    fit_and_pad img w h = Return canvas ∧
    size canvas = (w, h) ∧
    (1 ≤ width scaled ∧ 0 ≤ x ∧ x + width scaled ≤ w) ∧
    (1 ≤ height scaled ∧ 0 ≤ y ∧ y + height scaled ≤ h) ∧
    ∀ px py, 0 ≤ px < w → 0 ≤ py < h →
      getpixel canvas px py =
        Some (match getpixel scaled (px - x) (py - y) with
              | Some p => blend_pixel p transparent p
              | None => transparent
              end).
Proof.
  intros Hiw Hih Hw Hh.
  destruct (thumbnail_lanczos_total img w h Hiw Hih Hw Hh)
    as (scaled & Hs & Hsw & Hsh).
  destruct (paste_position_fits scaled w h) as (x & y & Hp & Hx); [lia..|].
  exists scaled,
    (paste {| size := (w, h);
              data := replicate (Z.to_nat (w * h)) transparent |}
           scaled (x, y) scaled), x, y.
  split; [done|]. split; [done|].
  split; [rewrite <- Hp; apply fit_and_pad_Return; [lia..|done]|].
  split; [by rewrite size_paste|].
  split; [lia|]. split; [lia|].
  intros px py Hpx Hpy.
  rewrite getpixel_paste by done.
  rewrite getpixel_new by done. simpl.
  by destruct (getpixel scaled (px - x) (py - y)).
Qed.

(** ** The dimensions of the output *)

(** C1. For a positive target and a source that decodes (to a raster of
    positive size), the transform builds a canvas whose size is exactly
    [(width, height)] and whose buffer holds one pixel for each of its
    [width * height] positions, whatever the size of the source, and that
    canvas is what is handed to [save]: the call returns [True] when the
    save succeeds. *)
Theorem output_dimensions_equal_target
    (st : Storage) (input_path output_path : string) (width height : Z)
    (img : Image) :
  0 < width → 0 < height →
  Image_open st input_path = Return img →
  0 < PIL.width img → 0 < PIL.height img →
  ∃ canvas,
    fit_and_pad img width height = Return canvas ∧
    size canvas = (width, height) ∧
    well_formed canvas ∧
    resize_with_transparent_bg st input_path output_path width height =
      match Image_save st output_path canvas with
      | (st', Return _) => (st', Return true)
      | (st', Raise e) => (st', Raise (handle input_path output_path e))
      end.
Proof.
  intros Hw Hh Hopen Hiw Hih.
  destruct (thumbnail_lanczos_total img width height Hiw Hih Hw Hh)
    as (scaled & Hs & _).
  pose proof (fit_and_pad_Return img scaled width height
                ltac:(lia) ltac:(lia) Hs) as Hfit.
  eexists. split; [exact Hfit|].
  split; [by rewrite size_paste|].
  split.
  - apply well_formed_paste. unfold well_formed, PIL.width, PIL.height. simpl.
    rewrite length_replicate. lia.
  - unfold resize_with_transparent_bg, resize_body.
    rewrite Hopen, Hfit.
    by destruct (Image_save st output_path _) as [st' [[]|e]].
Qed.

(** C3. A source that already fits in the target box is not scaled at
    all: the thumbnail step returns the very same image, so the scaled
    dimensions are the source dimensions. *)
Theorem no_upscaling_when_source_fits (img : Image) (width height : Z) :
  PIL.width img ≤ width → PIL.height img ≤ height →
  thumbnail_lanczos img width height = Return img.
Proof. apply thumbnail_lanczos_fits. Qed.

(** ** Centring *)

(** C4. The scaled content is pasted at the offset
    [x = (width - scaled_width) // 2], [y = (height - scaled_height) // 2]:
    every pixel of the output is the blend of the content pixel [x] columns
    to its left and [y] rows above it, an opaque content pixel appears
    unchanged [x] columns and [y] rows further, and outside that rectangle
    the output is transparent.  The padding left of (above) the content is
    [x] ([y]) pixels, the padding right of (below) it is the same when the
    free space is even and one pixel more when it is odd.  A content that
    already fits in the box is the source itself. *)
Theorem centring_leaves_odd_pixel_right_bottom (img : Image) (width height : Z) :
  0 < width → 0 < height → 0 < PIL.width img → 0 < PIL.height img →
  ∃ scaled canvas x y,
    thumbnail_lanczos img width height = Return scaled ∧
    fit_and_pad img width height = Return canvas ∧
    (PIL.width img ≤ width → PIL.height img ≤ height → scaled = img) ∧
    x = (width - PIL.width scaled) `div` 2 ∧
    y = (height - PIL.height scaled) `div` 2 ∧
    0 ≤ x ∧ 0 ≤ y ∧
    width - (x + PIL.width scaled) = x + Z.b2z (Z.odd (width - PIL.width scaled)) ∧
    height - (y + PIL.height scaled) = y + Z.b2z (Z.odd (height - PIL.height scaled)) ∧
    (∀ px py,
       0 ≤ px < width → 0 ≤ py < height →
       getpixel canvas px py =
         Some (match getpixel scaled (px - x) (py - y) with
               | Some p => blend_pixel p (0, 0, 0, 0) p
               | None => (0, 0, 0, 0)
               end)) ∧
    (∀ sx sy p,
       getpixel scaled sx sy = Some p →
       0 ≤ red p ≤ 255 → 0 ≤ green p ≤ 255 → 0 ≤ blue p ≤ 255 →
       alpha p = 255 →
       getpixel canvas (x + sx) (y + sy) = Some p) ∧
    (∀ px py,
       0 ≤ px < width → 0 ≤ py < height →
       ¬ (x ≤ px < x + PIL.width scaled ∧ y ≤ py < y + PIL.height scaled) →
       getpixel canvas px py = Some (0, 0, 0, 0)).
Proof.
  intros Hw Hh Hiw Hih.
  destruct (fit_and_pad_pixels img width height Hiw Hih Hw Hh)
    as (scaled & canvas & x & y & Hs & Hp & Hc & _ & Hx & Hy & Hpix).
  exists scaled, canvas, x, y. do 2 (split; [done|]).
  split.
  { intros Hfw Hfh.
    pose proof (thumbnail_lanczos_fits img width height Hfw Hfh) as Hfit.
    congruence. }
  unfold paste_position in Hp. injection Hp as Ex Ey.
  split; [done|]. split; [done|]. split; [lia|]. split; [lia|].
  split.
  { pose proof (Z.div2_odd (width - PIL.width scaled)) as E.
    rewrite Z.div2_div in E.
    destruct (Z.odd (width - PIL.width scaled)); simpl in *; lia. }
  split.
  { pose proof (Z.div2_odd (height - PIL.height scaled)) as E.
    rewrite Z.div2_div in E.
    destruct (Z.odd (height - PIL.height scaled)); simpl in *; lia. }
  split; [exact Hpix|]. split.
  - intros sx sy p Hsp Hr Hg Hb Ha.
    pose proof (getpixel_inv _ _ _ _ Hsp) as [Hsx Hsy].
    rewrite Hpix by lia.
    replace (x + sx - x) with sx by lia. replace (y + sy - y) with sy by lia.
    rewrite Hsp. f_equal. by apply blend_opaque.
  - intros px py Hpx Hpy Hout. rewrite Hpix by done.
    destruct (getpixel scaled (px - x) (py - y)) as [p|] eqn:E; [|done].
    apply getpixel_inv in E. lia.
Qed.

(** ** Transparency *)


(** C6, as amended. The scaled image is pasted through its own alpha band:
    under a pixel [p] of the scaled image every band of the output is the
    [BLEND] of the transparent canvas with the band of [p], weighted by
    the alpha of [p].  So a fully transparent pixel of the scaled image
    leaves the output transparent and an opaque one is copied.  When the
    source fits in the box the scaled image is the source, and every fully
    transparent pixel of the source stays transparent in the output. *)
Theorem paste_is_alpha_aware (img : Image) (width height : Z) :
  0 < width → 0 < height → 0 < PIL.width img → 0 < PIL.height img →
  ∃ scaled canvas x y,
    thumbnail_lanczos img width height = Return scaled ∧
    paste_position scaled width height = (x, y) ∧
    fit_and_pad img width height = Return canvas ∧
    (∀ sx sy p,
       getpixel scaled sx sy = Some p →
       getpixel canvas (x + sx) (y + sy) =
         Some (BLEND (alpha p) 0 (red p), BLEND (alpha p) 0 (green p),
               BLEND (alpha p) 0 (blue p), BLEND (alpha p) 0 (alpha p)) ∧
       (alpha p = 0 → getpixel canvas (x + sx) (y + sy) = Some (0, 0, 0, 0)) ∧
       (0 ≤ red p ≤ 255 → 0 ≤ green p ≤ 255 → 0 ≤ blue p ≤ 255 →
        alpha p = 255 → getpixel canvas (x + sx) (y + sy) = Some p)) ∧
    (PIL.width img ≤ width → PIL.height img ≤ height →
     ∀ sx sy p,
       getpixel img sx sy = Some p → alpha p = 0 →
       getpixel canvas (x + sx) (y + sy) = Some (0, 0, 0, 0)).
Proof.
  intros Hw Hh Hiw Hih.
  destruct (fit_and_pad_pixels img width height Hiw Hih Hw Hh)
    as (scaled & canvas & x & y & Hs & Hp & Hc & _ & Hx & Hy & Hpix).
  exists scaled, canvas, x, y. do 3 (split; [done|]).
  assert (∀ sx sy p,
            getpixel scaled sx sy = Some p →
            getpixel canvas (x + sx) (y + sy)
            = Some (blend_pixel p transparent p)) as Hcontent.
  { intros sx sy p Hsp.
    pose proof (getpixel_inv _ _ _ _ Hsp) as [Hsx Hsy].
    rewrite Hpix by lia.
    replace (x + sx - x) with sx by lia. replace (y + sy - y) with sy by lia.
    by rewrite Hsp. }
  split.
  - intros sx sy p Hsp. rewrite (Hcontent _ _ _ Hsp).
    split; [done|]. split.
    + intros Ha. f_equal. by apply blend_transparent.
    + intros Hr Hg Hb Ha. f_equal. by apply blend_opaque.
  - intros Hfw Hfh sx sy p Hsp Ha.
    pose proof (thumbnail_lanczos_fits img width height Hfw Hfh) as Hfit.
    assert (scaled = img) as -> by congruence.
    rewrite (Hcontent _ _ _ Hsp). f_equal. by apply blend_transparent.
Qed.

(** ** The scaled size *)

Lemma thumbnail_size (self img : Image) (sz sz' : Z * Z) (resample : Z) :
  preserve_aspect_ratio (ceiling_wins_tie (size self) sz) self sz
    = Return (Some sz') →
  thumbnail self sz resample = Return img →
  size img = sz'.
Proof.
  intros Hsz. unfold thumbnail. rewrite Hsz, bind_Return.
  case_bool_decide as Hne.
  - unfold resize. do 2 (case_bool_decide; [discriminate|]).
    intros [= <-]. done.
  - intros [= <-]. by destruct (decide (size self = sz')).
Qed.

(** C2, as amended. For a source and a target of positive sizes the
    thumbnail step returns an image that fits in the target box, with
    sides of at least 1, each of them the source side times
    [s = min(target_width / src_width, target_height / src_height, 1)]
    rounded down or rounded up, and 1 where that would be 0.  A source
    that fits is left as it is.  Otherwise the side bound by the box is
    the side of the box, and the other side is [max(n, 1)] for the one [n]
    of the floor and the ceiling whose aspect ratio is at least as close
    to the source's as the other's (a height of 0 counting as distance 0);
    where the two are equally close the rounding of the floats decides. *)
Theorem scaled_size_is_closest_floor_or_ceiling (img : Image) (width height : Z) :
  0 < width → 0 < height → 0 < PIL.width img → 0 < PIL.height img →
  ∃ scaled,
    thumbnail_lanczos img width height = Return scaled ∧
    let s := spec_scale (PIL.width img) (PIL.height img) width height in
    (PIL.width scaled = Z.max 1 (Qfloor (inject_Z (PIL.width img) * s)) ∨
     PIL.width scaled = Z.max 1 (Qceiling (inject_Z (PIL.width img) * s))) ∧
    (PIL.height scaled = Z.max 1 (Qfloor (inject_Z (PIL.height img) * s)) ∨
     PIL.height scaled = Z.max 1 (Qceiling (inject_Z (PIL.height img) * s))) ∧
    1 ≤ PIL.width scaled ≤ width ∧ 1 ≤ PIL.height scaled ≤ height ∧
    (PIL.width img ≤ width → PIL.height img ≤ height → scaled = img) ∧
    (¬ (PIL.width img ≤ width ∧ PIL.height img ≤ height) →
     PIL.width img * height ≤ width * PIL.height img →
     PIL.height scaled = height ∧
     ∃ n, PIL.width scaled = Z.max n 1 ∧
       (n = Qfloor (inject_Z (PIL.width img) * s) ∨
        n = Qceiling (inject_Z (PIL.width img) * s)) ∧
       ∀ m, m = Qfloor (inject_Z (PIL.width img) * s) ∨
            m = Qceiling (inject_Z (PIL.width img) * s) →
         (aspect_error (PIL.width img) (PIL.height img) n height <=
          aspect_error (PIL.width img) (PIL.height img) m height)%Q) ∧
    (¬ (PIL.width img ≤ width ∧ PIL.height img ≤ height) →
     ¬ PIL.width img * height ≤ width * PIL.height img →
     PIL.width scaled = width ∧
     ∃ n, PIL.height scaled = Z.max n 1 ∧
       (n = Qfloor (inject_Z (PIL.height img) * s) ∨
        n = Qceiling (inject_Z (PIL.height img) * s)) ∧
       ∀ m, m = Qfloor (inject_Z (PIL.height img) * s) ∨
            m = Qceiling (inject_Z (PIL.height img) * s) →
         ((if n =? 0 then 0
           else aspect_error (PIL.width img) (PIL.height img) width n) <=
          (if m =? 0 then 0
           else aspect_error (PIL.width img) (PIL.height img) width m))%Q).
Proof.
  intros Hw Hh Hiw Hih.
  destruct (decide (width >= PIL.width img ∧ height >= PIL.height img))
    as [Hfit | Hfit].
  - exists img. split; [apply thumbnail_lanczos_fits; lia|].
    cbv zeta.
    pose proof (spec_scale_fits (PIL.width img) (PIL.height img) width height
                  Hiw Hih ltac:(lia) ltac:(lia)) as Hs.
    split.
    { left. rewrite (Qfloor_comp _ (inject_Z (PIL.width img)))
        by (rewrite Hs; ring).
      rewrite Qfloor_Z. lia. }
    split.
    { left. rewrite (Qfloor_comp _ (inject_Z (PIL.height img)))
        by (rewrite Hs; ring).
      rewrite Qfloor_Z. lia. }
    split; [lia|]. split; [lia|]. split; [done|].
    split; intros Hno; exfalso; apply Hno; lia.
  - destruct (thumbnail_shrinks img width height LANCZOS Hiw Hih Hw Hh Hfit)
      as (scaled & Hs & Hb).
    destruct (preserve_aspect_ratio_scaled
                (ceiling_wins_tie (size img) (width, height))
                img width height Hiw Hih Hw Hh Hfit)
      as (x' & y' & Hsz & Hx' & Hy').
    destruct (preserve_aspect_ratio_closest
                (ceiling_wins_tie (size img) (width, height))
                img width height Hiw Hih Hw Hh Hfit)
      as (x'' & y'' & Hsz' & Hheight & Hwidth).
    assert (x'' = x' ∧ y'' = y') as [-> ->] by (split; congruence).
    pose proof (thumbnail_size _ _ _ _ _ Hsz Hs) as Esz.
    exists scaled. split; [by apply thumbnail_lanczos_Return|].
    assert (PIL.width scaled = x') as Ex by (unfold PIL.width; by rewrite Esz).
    assert (PIL.height scaled = y') as Ey by (unfold PIL.height; by rewrite Esz).
    cbv zeta in *. rewrite Ex, Ey.
    split; [done|]. split; [done|].
    rewrite <- Ex, <- Ey. split; [lia|]. split; [lia|].
    split; [intros ? ?; exfalso; apply Hfit; lia|].
    rewrite Ex, Ey. split; [intros _; exact Hheight | intros _; exact Hwidth].
Qed.

(** ** Failures *)

(** C7, as amended. When opening the source fails the storage is left as
    it was, so no output file is created or modified.  A path that does
    not exist is reported as [FileNotFoundError] with the message
    "Could not find input file: <input_path>"; a failure of any class
    other than [FileNotFoundError] and [PermissionError] (a corrupt or
    unsupported file) is reported as the generic [Exception]
    "Error processing image: <cause>". *)
Theorem unreadable_source_reports
    (st : Storage) (input_path output_path : string) (width height : Z)
    (e : exn) :
  Image_open st input_path = Raise e →
  (resize_with_transparent_bg st input_path output_path width height).1 = st ∧
  (exn_cls e = FileNotFoundError →
   (resize_with_transparent_bg st input_path output_path width height).2 =
     Raise (Exn FileNotFoundError ("Could not find input file: " +:+ input_path))) ∧
  (exn_cls e ≠ FileNotFoundError → exn_cls e ≠ PermissionError →
   (resize_with_transparent_bg st input_path output_path width height).2 =
     Raise (Exn Exception ("Error processing image: " +:+ exn_str e))).
Proof.
  intros Hopen. unfold resize_with_transparent_bg, resize_body.
  rewrite Hopen. simpl. split; [done|]. unfold handle.
  split; [by intros ->|].
  intros H1 H2. by destruct (exn_cls e).
Qed.

(** C8, as amended. When saving the canvas fails with a
    [PermissionError] the call raises [PermissionError] with the message
    "Permission denied when saving to: <output_path>"; when it fails with
    an exception of any class other than [PermissionError] and
    [FileNotFoundError] the call raises the generic [Exception]
    "Error processing image: <cause>".  The canvas is written straight
    to the output path: the storage after the call is the storage the
    failed save left, nothing is cleaned up. *)
Theorem unwritable_destination_reports
    (st st' : Storage) (input_path output_path : string) (width height : Z)
    (img canvas : Image) (e : exn) :
  Image_open st input_path = Return img →
  fit_and_pad img width height = Return canvas →
  Image_save st output_path canvas = (st', Raise e) →
  (resize_with_transparent_bg st input_path output_path width height).1 = st' ∧
  (exn_cls e = PermissionError →
   (resize_with_transparent_bg st input_path output_path width height).2 =
     Raise (Exn PermissionError
              ("Permission denied when saving to: " +:+ output_path))) ∧
  (exn_cls e ≠ PermissionError → exn_cls e ≠ FileNotFoundError →
   (resize_with_transparent_bg st input_path output_path width height).2 =
     Raise (Exn Exception ("Error processing image: " +:+ exn_str e))).
Proof.
  intros Hopen Hfit Hsave. unfold resize_with_transparent_bg, resize_body.
  rewrite Hopen, Hfit, Hsave. simpl. split; [done|]. unfold handle.
  split; [by intros ->|].
  intros H1 H2. by destruct (exn_cls e).
Qed.

(** C10. Whenever the body of the transform raises a [PermissionError],
    and in particular when opening the source for reading does, the call
    raises [PermissionError] with the message
    "Permission denied when saving to: <output_path>": the message is
    built from the output path alone. *)
Theorem permission_error_blames_output_path
    (st : Storage) (input_path output_path : string) (width height : Z)
    (e : exn) :
  exn_cls e = PermissionError →
  (resize_body st input_path output_path width height).2 = Raise e ∨
  Image_open st input_path = Raise e →
  (resize_with_transparent_bg st input_path output_path width height).2 =
    Raise (Exn PermissionError
             ("Permission denied when saving to: " +:+ output_path)).
Proof.
  intros Hcls Hraise.
  assert ((resize_body st input_path output_path width height).2 = Raise e)
    as Hbody.
  { destruct Hraise as [Hb | Hopen]; [done|].
    unfold resize_body. by rewrite Hopen. }
  unfold resize_with_transparent_bg.
  destruct (resize_body st input_path output_path width height) as [st' r].
  simpl in Hbody. subst r. simpl. unfold handle. by rewrite Hcls.
Qed.

End TransformFacts.

(** ** The presets *)

(** C9. Each of the three labels of the table maps to its pair, the table
    has no other label, and a label that is not in the table (the empty
    selection among them) silently gets the Portrait pair [(1080, 1350)]:
    the lookup never fails.  [on_preset_change] writes the pair found into
    the width and height variables. *)
Theorem preset_lookup_falls_back_to_portrait :
  preset_dimensions "Square (1:1) 1080×1080" = Return (1080, 1080) ∧
  preset_dimensions "Portrait (4:5) 1080×1350" = Return (1080, 1350) ∧
  preset_dimensions "Landscape (16:9) 1080×606" = Return (1080, 606) ∧
  dom PRESETS = ({[ "Square (1:1) 1080×1080"; "Portrait (4:5) 1080×1350";
                    "Landscape (16:9) 1080×606" ]} : gset string) ∧
  (∀ label, PRESETS !! label = None →
            preset_dimensions label = Return (1080, 1350)) ∧
  preset_dimensions EmptyString = Return (1080, 1350) ∧
  (∀ v, ∃ w h,
     preset_dimensions (preset_var v) = Return (w, h) ∧
     on_preset_change v =
       Return {| input_var := input_var v; output_var := output_var v;
                 width_var := pretty w; height_var := pretty h;
                 preset_var := preset_var v |}).
Proof.
  assert (PRESETS !! "Portrait (4:5) 1080×1350" = Some (1080, 1350)) as Hp
    by (vm_compute; reflexivity).
  assert (∀ label, preset_dimensions label =
                   Return (default (1080, 1350) (PRESETS !! label))) as Hd.
  { intros label. unfold preset_dimensions, getitem. by rewrite Hp. }
  split; [by vm_compute|]. split; [by vm_compute|]. split; [by vm_compute|].
  split.
  { unfold PRESETS. rewrite !dom_insert_L, dom_singleton_L. set_solver. }
  split; [intros label Hnone; by rewrite Hd, Hnone|].
  split; [by vm_compute|].
  intros v. rewrite Hd. unfold on_preset_change. rewrite Hd.
  destruct (default (1080, 1350) (PRESETS !! preset_var v)) as [w h].
  by exists w, h.
Qed.

(** ** The properties at work on the small storage *)

Lemma output_dimensions_equal_target_witness :
  ∃ canvas,
    fit_and_pad Disk.photo 3 3 = Return canvas ∧
    size canvas = (3, 3) ∧
    well_formed canvas ∧
    resize_with_transparent_bg Disk.shelf "photo.png" "out.png" 3 3 =
      match Image_save Disk.shelf "out.png" canvas with
      | (st', Return _) => (st', Return true)
      | (st', Raise e) => (st', Raise (handle "photo.png" "out.png" e))
      end.
Proof.
  apply (output_dimensions_equal_target Disk.shelf "photo.png" "out.png" 3 3
           Disk.photo); [lia | lia | reflexivity | reflexivity | reflexivity].
Defined.

(** The scenario of the specification: a 500 by 500 source on the Portrait
    canvas stays 500 by 500 and is pasted at (290, 425). *)
Lemma no_upscaling_when_source_fits_witness :
  thumbnail_lanczos (Disk.plain 500 500 (200, 100, 50, 255)) 1080 1350 =
    Return (Disk.plain 500 500 (200, 100, 50, 255)) ∧
  paste_position (Disk.plain 500 500 (200, 100, 50, 255)) 1080 1350 = (290, 425).
Proof.
  split; [|reflexivity].
  apply (no_upscaling_when_source_fits (H := Disk.platform)
           (Disk.plain 500 500 (200, 100, 50, 255)) 1080 1350);
    unfold PIL.width, PIL.height, Disk.plain; simpl; lia.
Defined.

(** A content of 2 by 1 on a 5 by 4 canvas: three free pixels each way,
    one before the content and two after it. *)
Lemma centring_leaves_odd_pixel_right_bottom_witness :
  ∃ scaled canvas x y,
    thumbnail_lanczos Samples.pair 5 4 = Return scaled ∧
    fit_and_pad Samples.pair 5 4 = Return canvas ∧
    (PIL.width Samples.pair ≤ 5 → PIL.height Samples.pair ≤ 4 →
     scaled = Samples.pair) ∧
    x = (5 - PIL.width scaled) `div` 2 ∧
    y = (4 - PIL.height scaled) `div` 2 ∧
    0 ≤ x ∧ 0 ≤ y ∧
    5 - (x + PIL.width scaled) = x + Z.b2z (Z.odd (5 - PIL.width scaled)) ∧
    4 - (y + PIL.height scaled) = y + Z.b2z (Z.odd (4 - PIL.height scaled)) ∧
    (∀ px py,
       0 ≤ px < 5 → 0 ≤ py < 4 →
       getpixel canvas px py =
         Some (match getpixel scaled (px - x) (py - y) with
               | Some p => blend_pixel p (0, 0, 0, 0) p
               | None => (0, 0, 0, 0)
               end)) ∧
    (∀ sx sy p,
       getpixel scaled sx sy = Some p →
       0 ≤ red p ≤ 255 → 0 ≤ green p ≤ 255 → 0 ≤ blue p ≤ 255 →
       alpha p = 255 →
       getpixel canvas (x + sx) (y + sy) = Some p) ∧
    (∀ px py,
       0 ≤ px < 5 → 0 ≤ py < 4 →
       ¬ (x ≤ px < x + PIL.width scaled ∧ y ≤ py < y + PIL.height scaled) →
       getpixel canvas px py = Some (0, 0, 0, 0)).
Proof.
  apply (centring_leaves_odd_pixel_right_bottom (H := Disk.platform)
           Samples.pair 5 4); reflexivity.
Defined.


Lemma paste_is_alpha_aware_witness :
  ∃ scaled canvas x y,
    thumbnail_lanczos Samples.pair 5 4 = Return scaled ∧
    paste_position scaled 5 4 = (x, y) ∧
    fit_and_pad Samples.pair 5 4 = Return canvas ∧
    (∀ sx sy p,
       getpixel scaled sx sy = Some p →
       getpixel canvas (x + sx) (y + sy) =
         Some (BLEND (alpha p) 0 (red p), BLEND (alpha p) 0 (green p),
               BLEND (alpha p) 0 (blue p), BLEND (alpha p) 0 (alpha p)) ∧
       (alpha p = 0 → getpixel canvas (x + sx) (y + sy) = Some (0, 0, 0, 0)) ∧
       (0 ≤ red p ≤ 255 → 0 ≤ green p ≤ 255 → 0 ≤ blue p ≤ 255 →
        alpha p = 255 → getpixel canvas (x + sx) (y + sy) = Some p)) ∧
    (PIL.width Samples.pair ≤ 5 → PIL.height Samples.pair ≤ 4 →
     ∀ sx sy p,
       getpixel Samples.pair sx sy = Some p → alpha p = 0 →
       getpixel canvas (x + sx) (y + sy) = Some (0, 0, 0, 0)).
Proof.
  apply (paste_is_alpha_aware (H := Disk.platform) Samples.pair 5 4);
    reflexivity.
Defined.

(** C6 fails as it is worded. A source of 2 by 2 pixels whose pixel at
    (1, 1) is fully transparent is scaled to the single pixel of a 1 by 1
    box; that pixel, the only one the transparent source pixel can
    correspond to, is not transparent in the output: resampling mixes it
    with its opaque neighbours. *)
Lemma transparent_source_pixel_is_lost_in_scaling :
  getpixel Samples.speck 1 1 = Some (0, 0, 0, 0) ∧
  ∃ canvas q,
    fit_and_pad Samples.speck 1 1 = Return canvas ∧
    size canvas = (1, 1) ∧
    getpixel canvas 0 0 = Some q ∧
    alpha q ≠ 0.
Proof.
  split; [reflexivity|].
  eexists _, _. split; [vm_compute; reflexivity|].
  split; [reflexivity|]. split; [vm_compute; reflexivity|].
  by vm_compute.
Qed.

Lemma scaled_size_is_closest_floor_or_ceiling_witness :
  ∃ scaled,
    thumbnail_lanczos Samples.ribbon 29 29 = Return scaled ∧
    let s := spec_scale (PIL.width Samples.ribbon) (PIL.height Samples.ribbon)
               29 29 in
    (PIL.width scaled
       = Z.max 1 (Qfloor (inject_Z (PIL.width Samples.ribbon) * s)) ∨
     PIL.width scaled
       = Z.max 1 (Qceiling (inject_Z (PIL.width Samples.ribbon) * s))) ∧
    (PIL.height scaled
       = Z.max 1 (Qfloor (inject_Z (PIL.height Samples.ribbon) * s)) ∨
     PIL.height scaled
       = Z.max 1 (Qceiling (inject_Z (PIL.height Samples.ribbon) * s))) ∧
    1 ≤ PIL.width scaled ≤ 29 ∧ 1 ≤ PIL.height scaled ≤ 29 ∧
    (PIL.width Samples.ribbon ≤ 29 → PIL.height Samples.ribbon ≤ 29 →
     scaled = Samples.ribbon) ∧
    (¬ (PIL.width Samples.ribbon ≤ 29 ∧ PIL.height Samples.ribbon ≤ 29) →
     PIL.width Samples.ribbon * 29 ≤ 29 * PIL.height Samples.ribbon →
     PIL.height scaled = 29 ∧
     ∃ n, PIL.width scaled = Z.max n 1 ∧
       (n = Qfloor (inject_Z (PIL.width Samples.ribbon) * s) ∨
        n = Qceiling (inject_Z (PIL.width Samples.ribbon) * s)) ∧
       ∀ m, m = Qfloor (inject_Z (PIL.width Samples.ribbon) * s) ∨
            m = Qceiling (inject_Z (PIL.width Samples.ribbon) * s) →
         (aspect_error (PIL.width Samples.ribbon) (PIL.height Samples.ribbon)
            n 29 <=
          aspect_error (PIL.width Samples.ribbon) (PIL.height Samples.ribbon)
            m 29)%Q) ∧
    (¬ (PIL.width Samples.ribbon ≤ 29 ∧ PIL.height Samples.ribbon ≤ 29) →
     ¬ PIL.width Samples.ribbon * 29 ≤ 29 * PIL.height Samples.ribbon →
     PIL.width scaled = 29 ∧
     ∃ n, PIL.height scaled = Z.max n 1 ∧
       (n = Qfloor (inject_Z (PIL.height Samples.ribbon) * s) ∨
        n = Qceiling (inject_Z (PIL.height Samples.ribbon) * s)) ∧
       ∀ m, m = Qfloor (inject_Z (PIL.height Samples.ribbon) * s) ∨
            m = Qceiling (inject_Z (PIL.height Samples.ribbon) * s) →
         ((if n =? 0 then 0
           else aspect_error (PIL.width Samples.ribbon)
                  (PIL.height Samples.ribbon) 29 n) <=
          (if m =? 0 then 0
           else aspect_error (PIL.width Samples.ribbon)
                  (PIL.height Samples.ribbon) 29 m))%Q).
Proof.
  apply (scaled_size_is_closest_floor_or_ceiling (H := Disk.platform)
           Samples.ribbon 29 29); reflexivity.
Defined.

(** C2 fails as it is worded. A 3 by 1000 source in a 10 by 10 box is
    scaled to 1 by 10, while [3 * s = 3/100] rounds to 0; a 2000 by 100
    source in a 29 by 29 box is scaled to 29 by 2, while
    [100 * s = 29/20] rounds to 1. *)
Lemma scaled_size_is_not_the_rounded_product :
  (∃ scaled,
     thumbnail_lanczos (Disk.plain 3 1000 (0, 0, 0, 255)) 10 10 = Return scaled ∧
     size scaled = (1, 10) ∧
     ¬ spec_scaled_size 3 1000 10 10 1 10) ∧
  (∃ scaled,
     thumbnail_lanczos (Disk.plain 2000 100 (0, 0, 0, 255)) 29 29 = Return scaled ∧
     size scaled = (29, 2) ∧
     ¬ spec_scaled_size 2000 100 29 29 29 2).
Proof.
  split.
  - eexists. split; [vm_compute; reflexivity|]. split; [reflexivity|].
    intros (rw & rh & Hrw & _ & Hw & _).
    assert (rw = 1) as -> by lia.
    vm_compute in Hrw. by apply Hrw.
  - eexists. split; [vm_compute; reflexivity|]. split; [reflexivity|].
    intros (rw & rh & _ & Hrh & _ & Hh).
    assert (rh = 2) as -> by lia.
    vm_compute in Hrh. by apply Hrh.
Qed.

Lemma unreadable_source_reports_witness :
  (resize_with_transparent_bg Disk.shelf "missing.png" "out.png" 1080 1350).1
    = Disk.shelf ∧
  (FileNotFoundError = FileNotFoundError →
   (resize_with_transparent_bg Disk.shelf "missing.png" "out.png" 1080 1350).2 =
     Raise (Exn FileNotFoundError "Could not find input file: missing.png")) ∧
  (FileNotFoundError ≠ FileNotFoundError → FileNotFoundError ≠ PermissionError →
   (resize_with_transparent_bg Disk.shelf "missing.png" "out.png" 1080 1350).2 =
     Raise (Exn Exception
              "Error processing image: [Errno 2] No such file or directory: 'missing.png'")).
Proof.
  apply (unreadable_source_reports Disk.shelf "missing.png" "out.png" 1080 1350
           (Exn FileNotFoundError
              "[Errno 2] No such file or directory: 'missing.png'")).
  reflexivity.
Defined.

(** C7 fails as it is worded. A truncated source ends the call with the
    generic failure, whose message carries the cause and does not name the
    input path. *)
Lemma corrupt_source_is_a_generic_failure :
  Image_open Disk.shelf "torn.png" =
    Raise (Exn OSError "image file is truncated (41 bytes not processed)") ∧
  (resize_with_transparent_bg Disk.shelf "torn.png" "out.png" 1080 1350).2 =
    Raise (Exn Exception
             "Error processing image: image file is truncated (41 bytes not processed)") ∧
  ¬ fails_naming "torn.png"
      (resize_with_transparent_bg Disk.shelf "torn.png" "out.png" 1080 1350).2.
Proof.
  split; [reflexivity|]. split; [reflexivity|].
  intros (e & He & Hn).
  change (Raise (Exn Exception
            "Error processing image: image file is truncated (41 bytes not processed)")
          = Raise (A := bool) e) in He.
  injection He as <-. vm_compute in Hn. discriminate.
Qed.

Lemma unwritable_destination_reports_witness :
  (resize_with_transparent_bg Disk.shelf "photo.png" "vault/out.png" 3 3).1
    = Disk.shelf ∧
  (PermissionError = PermissionError →
   (resize_with_transparent_bg Disk.shelf "photo.png" "vault/out.png" 3 3).2 =
     Raise (Exn PermissionError "Permission denied when saving to: vault/out.png")) ∧
  (PermissionError ≠ PermissionError → PermissionError ≠ FileNotFoundError →
   (resize_with_transparent_bg Disk.shelf "photo.png" "vault/out.png" 3 3).2 =
     Raise (Exn Exception
              "Error processing image: [Errno 13] Permission denied: 'vault/out.png'")).
Proof.
  eapply (unwritable_destination_reports Disk.shelf Disk.shelf
            "photo.png" "vault/out.png" 3 3 Disk.photo _
            (Exn PermissionError "[Errno 13] Permission denied: 'vault/out.png'"));
    reflexivity.
Defined.

(** C8 fails as it is worded. On a device without room the save fails
    after the output file was truncated: the call ends with the generic
    failure, whose message does not name the output path, and the output
    path, which held a good picture, is left holding a broken file. *)
Lemma full_device_leaves_broken_output :
  (resize_with_transparent_bg Disk.full_shelf "photo.png" "old.png" 3 3).2 =
    Raise (Exn Exception
             "Error processing image: [Errno 28] No space left on device") ∧
  ¬ fails_naming "old.png"
      (resize_with_transparent_bg Disk.full_shelf "photo.png" "old.png" 3 3).2 ∧
  Disk.files Disk.full_shelf !! "old.png" = Some (Disk.Picture Disk.photo) ∧
  Disk.files
    (resize_with_transparent_bg Disk.full_shelf "photo.png" "old.png" 3 3).1
    !! "old.png" = Some (Disk.Broken (Exn OSError "image file is truncated")).
Proof.
  split; [by vm_compute|]. split.
  - intros (e & He & Hn).
    assert (e = Exn Exception
                  "Error processing image: [Errno 28] No space left on device")
      as -> by (vm_compute in He; congruence).
    vm_compute in Hn. discriminate.
  - split; by vm_compute.
Qed.

Lemma preset_lookup_falls_back_to_portrait_witness :
  PRESETS !! "Story (9:16) 1080×1920" = None ∧
  preset_dimensions "Story (9:16) 1080×1920" = Return (1080, 1350).
Proof.
  split; [by vm_compute|].
  apply (proj1 (proj2 (proj2 (proj2 (proj2
           preset_lookup_falls_back_to_portrait))))).
  by vm_compute.
Defined.

Lemma permission_error_blames_output_path_witness :
  Image_open Disk.shelf "locked.png" =
    Raise (Exn PermissionError "[Errno 13] Permission denied: 'locked.png'") ∧
  (resize_with_transparent_bg Disk.shelf "locked.png" "out.png" 1080 1350).2 =
    Raise (Exn PermissionError "Permission denied when saving to: out.png").
Proof.
  split; [reflexivity|].
  apply (permission_error_blames_output_path Disk.shelf "locked.png" "out.png"
           1080 1350
           (Exn PermissionError "[Errno 13] Permission denied: 'locked.png'"));
    [reflexivity | right; reflexivity].
Defined.

(** * More of the code *)

(** ** Strings *)

Lemma lower_app (s t : string) : lower (s +:+ t) = lower s +:+ lower t.
Proof. induction s as [|c s IH]; simpl; [done | by rewrite IH]. Qed.

Lemma endswith_refl (s : string) : endswith s s = true.
Proof. destruct s; cbn [endswith]; by rewrite String.eqb_refl. Qed.

Lemma endswith_app (s suffix : string) : endswith (s +:+ suffix) suffix = true.
Proof.
  induction s as [|c s IH].
  - apply endswith_refl.
  - change (String c s +:+ suffix) with (String c (s +:+ suffix)).
    cbn [endswith]. rewrite IH. apply orb_true_r.
Qed.

Lemma app_empty_inv (s t : string) : s +:+ t = EmptyString → s = EmptyString.
Proof. by destruct s. Qed.

Lemma app_nonempty_r (s t : string) : t ≠ EmptyString → s +:+ t ≠ EmptyString.
Proof. destruct s; [done | discriminate]. Qed.

Lemma split_at_last_without (sep : ascii) (s : string) :
  contains_char sep s = false → split_at_last sep s = None.
Proof.
  induction s as [|c s IH]; simpl; [done|].
  intros [Hc Hs]%orb_false_elim. by rewrite IH, Hc.
Qed.

Lemma split_at_last_app (sep : ascii) (before after : string) :
  contains_char sep after = false →
  split_at_last sep (before +:+ String sep after) = Some (before, after).
Proof.
  intros Hafter. induction before as [|c s IH]; simpl.
  - rewrite (split_at_last_without _ _ Hafter).
    by rewrite bool_decide_eq_true_2.
  - by rewrite IH.
Qed.

(** ** The file dialogs *)

Lemma select_output_path (path : string) (v : TkVars) :
  path ≠ EmptyString →
  select_output path v =
    set_output_var v (if endswith (lower path) ".png" then path
                      else path +:+ ".png") ∧
  endswith (lower (if endswith (lower path) ".png" then path
                   else path +:+ ".png")) ".png" = true ∧
  (if endswith (lower path) ".png" then path else path +:+ ".png") ≠ EmptyString.
Proof.
  intros Hpath. unfold select_output.
  rewrite bool_decide_eq_true_2 by done. split; [done|].
  destruct (endswith (lower path) ".png") eqn:E; [done|].
  split; [rewrite lower_app; apply endswith_app|].
  by apply app_nonempty_r.
Qed.

(** After [select_output] the output path ends in [.png], in whatever
    letter case the user typed the extension. *)
Theorem select_output_ends_with_png (path : string) (v : TkVars) :
  path ≠ EmptyString →
  endswith (lower (output_var (select_output path v))) ".png" = true.
Proof.
  intros Hpath.
  destruct (select_output_path path v Hpath) as (-> & Hends & _). done.
Qed.

(** Choosing as output a path that [select_output] has stored changes
    nothing: the extension is never added twice. *)
Theorem select_output_idempotent (path : string) (v : TkVars) :
  path ≠ EmptyString →
  select_output (output_var (select_output path v)) (select_output path v)
  = select_output path v.
Proof.
  intros Hpath.
  destruct (select_output_path path v Hpath) as (-> & Hends & Hne).
  simpl. unfold select_output.
  rewrite bool_decide_eq_true_2 by done. by rewrite Hends.
Qed.

(** With no output chosen yet, [select_input] suggests the input path with
    everything after its last dot replaced by [png], and the input path
    followed by [.png] when it has no dot. *)
Theorem select_input_suggests_png_name (v : TkVars) :
  output_var v = EmptyString →
  (∀ stem ext,
     contains_char "." ext = false →
     select_input (stem +:+ "." +:+ ext) v =
       set_output_var (set_input_var v (stem +:+ "." +:+ ext)) (stem +:+ ".png")) ∧
  (∀ path,
     path ≠ EmptyString → contains_char "." path = false →
     select_input path v =
       set_output_var (set_input_var v path) (path +:+ ".png")).
Proof.
  intros Hout. split.
  - intros stem ext Hext. unfold select_input.
    rewrite bool_decide_eq_true_2 by (by destruct stem).
    simpl. rewrite Hout, bool_decide_eq_true_2 by done.
    unfold rsplit1.
    change (stem +:+ "." +:+ ext) with (stem +:+ String "." ext).
    by rewrite split_at_last_app.
  - intros path Hpath Hdot. unfold select_input.
    rewrite bool_decide_eq_true_2 by done.
    simpl. rewrite Hout, bool_decide_eq_true_2 by done.
    unfold rsplit1. by rewrite split_at_last_without.
Qed.

Lemma select_input_fresh (path : string) (v : TkVars) :
  output_var v = EmptyString → path ≠ EmptyString →
  select_input path v =
    set_output_var (set_input_var v path)
      (hd EmptyString (rsplit1 path ".") +:+ ".png").
Proof.
  intros Hout Hpath. unfold select_input.
  rewrite bool_decide_eq_true_2 by done.
  simpl. by rewrite Hout, bool_decide_eq_true_2.
Qed.

(** The name [select_input] suggests is one [select_output] would store as
    it is. *)
Theorem suggested_output_needs_no_extension (path : string) (v : TkVars) :
  output_var v = EmptyString → path ≠ EmptyString →
  select_output (output_var (select_input path v)) (select_input path v)
  = select_input path v.
Proof.
  intros Hout Hpath. rewrite select_input_fresh by done. simpl.
  unfold select_output. rewrite bool_decide_eq_true_2.
  - by rewrite lower_app, endswith_app.
  - by apply app_nonempty_r.
Qed.

(** For a source whose name ends in [.png] the suggested output path is
    the source path itself: resizing would write over the source. *)
Theorem png_source_suggests_itself (stem : string) (v : TkVars) :
  output_var v = EmptyString →
  output_var (select_input (stem +:+ ".png") v) = stem +:+ ".png" ∧
  input_var (select_input (stem +:+ ".png") v) = stem +:+ ".png".
Proof.
  intros Hout. rewrite select_input_fresh; [|done|by destruct stem].
  simpl. split; [|done]. unfold rsplit1.
  change (stem +:+ ".png") with (stem +:+ String "." "png").
  by rewrite split_at_last_app.
Qed.

(** ** The Resize button *)

Section FormFacts.

Context `{Python} `{Platform Storage}.

Lemma read_dimensions_positive (f : Form) (w h : Z) :
  read_dimensions f = Return (w, h) →
  int_of_str (width_var (vars f)) = Return w ∧
  int_of_str (height_var (vars f)) = Return h ∧ 0 < w ∧ 0 < h.
Proof.
  unfold read_dimensions.
  destruct (int_of_str (width_var (vars f))) as [w'|e]; [|discriminate].
  rewrite bind_Return.
  destruct (int_of_str (height_var (vars f))) as [h'|e]; [|discriminate].
  rewrite bind_Return.
  case_bool_decide as Hpos; [discriminate|].
  intros [= <- <-]. repeat split; lia.
Qed.

(** Whenever [run_conversion] returns, it has shown exactly one message
    box and left the variables alone, and the status bar is not left at
    "Processing...": it is untouched (with the storage) when the paths or
    the dimensions are rejected, "Ready" after the success box and "Error"
    after the error box of a failed transform. *)
Theorem run_conversion_shows_one_box (st st' : Storage) (f f' : Form) :
  run_conversion st f = Return (st', f') →
  vars f' = vars f ∧
  ∃ box : messagebox, shown f' = (shown f ++ [box])%list ∧
    ((status_label f' = status_label f ∧ st' = st ∧
      (box = showerror "Missing Paths"
               "Please select both input and output files." ∨
       box = showerror "Invalid Dimensions"
               "Width and height must be positive integers.")) ∨
     (status_label f' = "Ready" ∧ ∃ message, box = showinfo "Success" message) ∨
     (status_label f' = "Error" ∧ ∃ message, box = showerror "Error" message)).
Proof.
  unfold run_conversion. case_bool_decide as Hpaths.
  { intros [= <- <-]. split; [done|]. eexists. split; [done|]. left. auto. }
  destruct (read_dimensions f) as [[w h]|e].
  - destruct (resize_with_transparent_bg st _ _ w h) as [st1 [b|e]];
      intros [= <- <-]; (split; [done|]); eexists; (split; [done|]); right.
    + left. eauto.
    + right. eauto.
  - case_bool_decide; [|discriminate].
    intros [= <- <-]. split; [done|]. eexists. split; [done|]. left. auto.
Qed.

(** [run_conversion] changes the storage only through the transform, and
    it hands the transform two non-empty stripped paths and two positive
    dimensions. *)
Theorem run_conversion_validates_before_resizing
    (st st' : Storage) (f f' : Form) :
  run_conversion st f = Return (st', f') →
  st' ≠ st →
  ∃ w h,
    0 < w ∧ 0 < h ∧
    int_of_str (width_var (vars f)) = Return w ∧
    int_of_str (height_var (vars f)) = Return h ∧
    str_strip (input_var (vars f)) ≠ EmptyString ∧
    str_strip (output_var (vars f)) ≠ EmptyString ∧
    st' = (resize_with_transparent_bg st (str_strip (input_var (vars f)))
             (str_strip (output_var (vars f))) w h).1.
Proof.
  unfold run_conversion. case_bool_decide as Hpaths.
  { by intros [= <- <-]. }
  destruct (read_dimensions f) as [[w h]|e] eqn:Hdim.
  - apply read_dimensions_positive in Hdim as (Hw & Hh & Hwpos & Hhpos).
    intros Hrun Hst. exists w, h.
    repeat (split; [done || (intros E; apply Hpaths; auto)|]).
    by destruct (resize_with_transparent_bg st _ _ w h) as [st1 [b|e]];
      injection Hrun as <- <-.
  - case_bool_decide; [|discriminate]. by intros [= <- <-].
Qed.

(** A source path that does not exist ends in the error box with the text
    "Could not find input file: " and the stripped path, the status
    "Error" and the storage untouched. *)
Theorem missing_input_is_shown_to_the_user
    (st : Storage) (f : Form) (w h : Z) (e : exn) :
  str_strip (input_var (vars f)) ≠ EmptyString →
  str_strip (output_var (vars f)) ≠ EmptyString →
  read_dimensions f = Return (w, h) →
  Image_open st (str_strip (input_var (vars f))) = Raise e →
  exn_cls e = FileNotFoundError →
  run_conversion st f =
    Return (st, show (set_status f "Error")
                  (showerror "Error"
                     ("Could not find input file: " +:+
                      str_strip (input_var (vars f))))).
Proof.
  intros Hinp Hout Hdim Hopen Hcls. unfold run_conversion.
  rewrite bool_decide_eq_false_2 by (intros [?|?]; done).
  rewrite Hdim.
  unfold resize_with_transparent_bg, resize_body. rewrite Hopen.
  unfold handle. by rewrite Hcls.
Qed.



End FormFacts.

Lemma presets_are_positive (label : string) (w h : Z) :
  preset_dimensions label = Return (w, h) → 0 < w ∧ 0 < h.
Proof.
  assert (map_Forall (λ _ p, 0 < p.1 ∧ 0 < p.2) PRESETS) as Hall.
  { apply (bool_decide_unpack _). by vm_compute. }
  assert (PRESETS !! "Portrait (4:5) 1080×1350" = Some (1080, 1350)) as Hp
    by (vm_compute; reflexivity).
  unfold preset_dimensions, getitem, dict_get. rewrite Hp, bind_Return.
  destruct (PRESETS !! label) as [[w' h']|] eqn:E; simpl; intros [= <- <-].
  - by apply Hall in E.
  - lia.
Qed.

(** The dimensions [on_preset_change] writes always pass the check of
    [run_conversion]: provided [int] reads back the two numerals, whatever
    the selected label, the dimensions read are the preset's and both are
    positive. *)
Theorem preset_dimensions_pass_validation `{Python}
    (v v' : TkVars) (w h : Z) (f : Form) :
  preset_dimensions (preset_var v) = Return (w, h) →
  on_preset_change v = Return v' →
  int_of_str (pretty w) = Return w →
  int_of_str (pretty h) = Return h →
  vars f = v' →
  read_dimensions f = Return (w, h) ∧ 0 < w ∧ 0 < h.
Proof.
  intros Hdim Hchange Hw Hh Hf.
  pose proof (presets_are_positive _ _ _ Hdim) as [Hwpos Hhpos].
  split; [|done].
  unfold on_preset_change in Hchange. rewrite Hdim, bind_Return in Hchange.
  injection Hchange as <-.
  unfold read_dimensions. rewrite Hf. simpl.
  rewrite Hw, bind_Return, Hh, bind_Return.
  rewrite bool_decide_eq_false_2; [done | lia].
Qed.

(** ** The window *)

(** A window that fits on the screen is placed wholly on it, and the
    space left on its two sides differs by at most one pixel, in each
    direction. *)
Theorem window_is_centred_within_a_pixel (screenwidth screenheight width height : Z) :
  0 ≤ width ≤ screenwidth → 0 ≤ height ≤ screenheight →
  ∃ x y,
    window_origin screenwidth screenheight width height = (x, y) ∧
    0 ≤ x ∧ x + width ≤ screenwidth ∧
    0 ≤ y ∧ y + height ≤ screenheight ∧
    -1 ≤ (screenwidth - (x + width)) - x ≤ 1 ∧
    -1 ≤ (screenheight - (y + height)) - y ≤ 1.
Proof.
  intros Hw Hh. eexists _, _. split; [reflexivity|].
  pose proof (Z.div_mod screenwidth 2 ltac:(lia)).
  pose proof (Z.div_mod width 2 ltac:(lia)).
  pose proof (Z.div_mod screenheight 2 ltac:(lia)).
  pose proof (Z.div_mod height 2 ltac:(lia)).
  pose proof (Z.mod_pos_bound screenwidth 2 ltac:(lia)).
  pose proof (Z.mod_pos_bound width 2 ltac:(lia)).
  pose proof (Z.mod_pos_bound screenheight 2 ltac:(lia)).
  pose proof (Z.mod_pos_bound height 2 ltac:(lia)).
  lia.
Qed.

(** ** More on the transform *)

(** The size [preserve_aspect_ratio] returns for an image that does not
    fit is within the source size, and one of its sides is the side of the
    box. *)
Lemma preserve_aspect_ratio_within_source (tie : bool) (self : Image) (x y : Z) :
  0 < width self → 0 < height self → 0 < x → 0 < y →
  ¬ (x >= width self ∧ y >= height self) →
  ∃ x' y', preserve_aspect_ratio tie self (x, y) = Return (Some (x', y')) ∧
           x' ≤ width self ∧ y' ≤ height self ∧ (x' = x ∨ y' = y).
Proof.
  intros Hw Hh Hx Hy Hfit. unfold preserve_aspect_ratio.
  rewrite bool_decide_eq_false_2 by done.
  rewrite (truediv_pos (inject_Z (width self))) by (by apply inject_Z_pos).
  rewrite bind_Return.
  rewrite (truediv_pos (inject_Z x) (inject_Z y)) by (by apply inject_Z_pos).
  rewrite bind_Return.
  destruct (Qle_bool _ _) eqn:E.
  - apply Qle_bool_iff in E.
    apply (Qdiv_le_cross (width self) (height self) x y Hh Hy) in E.
    assert (y ≤ height self) as Hyh by nia.
    eexists _, _. split; [reflexivity|].
    split; [|split; [done | by right]].
    apply round_aspect_bounds; [lia|].
    rewrite Qmul_div_assoc by done. apply Qdiv_le_inject; [done|]. nia.
  - assert (¬ (width self * y ≤ x * height self)) as E'.
    { intros Hle. apply (Qdiv_le_cross _ _ _ _ Hh Hy), Qle_bool_iff in Hle.
      congruence. }
    assert (x ≤ width self) as Hxw by nia.
    rewrite truediv_pos by (by apply Qdiv_pos).
    rewrite bind_Return.
    eexists _, _. split; [reflexivity|].
    split; [done|]. split; [|by left].
    apply round_aspect_bounds; [lia|].
    rewrite Qdiv_div_swap by done. apply Qdiv_le_inject; [done|]. nia.
Qed.

(** The blend of a byte [v] with the transparent canvas, weighted by a
    byte [a], is [DIV255 (v * a)]: never more than [v], and less than the
    weight itself when [v] is the weight and is neither 0 nor 255. *)
Lemma BLEND_on_transparent (a v : Z) :
  0 ≤ a ≤ 255 → 0 ≤ v ≤ 255 →
  BLEND a 0 v = DIV255 (v * a) ∧ 0 ≤ BLEND a 0 v ≤ v ∧
  (0 < a < 255 → BLEND a 0 a < a).
Proof.
  intros Ha Hv.
  assert (forallb (λ i, forallb (λ j,
            let a := Z.of_nat i in let v := Z.of_nat j in
            (BLEND a 0 v =? DIV255 (v * a)) &&
            (0 <=? BLEND a 0 v) && (BLEND a 0 v <=? v) &&
            (negb ((0 <? a) && (a <? 255)) || (BLEND a 0 a <? a)))
            (seq 0 256)) (seq 0 256) = true) as Hall
    by (vm_compute; reflexivity).
  rewrite forallb_forall in Hall.
  specialize (Hall (Z.to_nat a) ltac:(apply in_seq; lia)).
  rewrite forallb_forall in Hall.
  specialize (Hall (Z.to_nat v) ltac:(apply in_seq; lia)).
  rewrite !Z2Nat.id in Hall by lia. cbv zeta in Hall.
  apply andb_prop in Hall as [[[Heq H0]%andb_prop Hle]%andb_prop Hlt].
  apply Z.eqb_eq in Heq. apply Z.leb_le in H0, Hle.
  split; [done|]. split; [done|].
  intros Hmid. apply orb_prop in Hlt as [Hlt|Hlt].
  - apply negb_true_iff, andb_false_iff in Hlt as [?%Z.ltb_ge|?%Z.ltb_ge]; lia.
  - by apply Z.ltb_lt.
Qed.

Section MoreTransformFacts.

Context `{Platform Storage}.

(** [scaled] is never larger than the source, in either direction: the
    transform never scales up. *)
Theorem scaled_never_exceeds_source (img : Image) (width height : Z) :
  0 < width → 0 < height → 0 < PIL.width img → 0 < PIL.height img →
  ∃ scaled,
    thumbnail_lanczos img width height = Return scaled ∧
    PIL.width scaled ≤ PIL.width img ∧ PIL.height scaled ≤ PIL.height img.
Proof.
  intros Hw Hh Hiw Hih.
  destruct (decide (width >= PIL.width img ∧ height >= PIL.height img))
    as [Hfit | Hfit].
  - exists img. split; [apply thumbnail_lanczos_fits; lia | lia].
  - destruct (thumbnail_shrinks img width height LANCZOS Hiw Hih Hw Hh Hfit)
      as (scaled & Hs & _).
    destruct (preserve_aspect_ratio_within_source
              (ceiling_wins_tie (size img) (width, height)) img width height
                Hiw Hih Hw Hh Hfit) as (x' & y' & Hsz & Hx' & Hy' & _).
    pose proof (thumbnail_size _ _ _ _ _ Hsz Hs) as Esz.
    exists scaled. split; [by apply thumbnail_lanczos_Return|].
    unfold PIL.width at 1, PIL.height at 1. by rewrite Esz.
Qed.

(** A source that does not fit is shrunk until one of its sides is the
    side of the box: the content touches two opposite edges of the canvas
    and padding is added in one direction only. *)
Theorem shrunk_content_spans_the_box (img : Image) (width height : Z) :
  0 < width → 0 < height → 0 < PIL.width img → 0 < PIL.height img →
  ¬ (PIL.width img ≤ width ∧ PIL.height img ≤ height) →
  ∃ scaled x y,
    thumbnail_lanczos img width height = Return scaled ∧
    paste_position scaled width height = (x, y) ∧
    ((PIL.width scaled = width ∧ x = 0) ∨ (PIL.height scaled = height ∧ y = 0)).
Proof.
  intros Hw Hh Hiw Hih Hfit.
  assert (¬ (width >= PIL.width img ∧ height >= PIL.height img)) as Hfit'
    by lia.
  destruct (thumbnail_shrinks img width height LANCZOS Hiw Hih Hw Hh Hfit')
    as (scaled & Hs & _).
  destruct (preserve_aspect_ratio_within_source
              (ceiling_wins_tie (size img) (width, height)) img width height
              Hiw Hih Hw Hh Hfit') as (x' & y' & Hsz & _ & _ & Hside).
  pose proof (thumbnail_size _ _ _ _ _ Hsz Hs) as Esz.
  exists scaled, ((width - PIL.width scaled) `div` 2),
    ((height - PIL.height scaled) `div` 2).
  split; [by apply thumbnail_lanczos_Return|]. split; [done|].
  unfold PIL.width at 1 2, PIL.height at 1 2. rewrite Esz. simpl.
  destruct Hside as [-> | ->]; [left | right];
    by rewrite Z.sub_diag.
Qed.

(** What the output holds under each pixel of the scaled image. *)
Lemma fit_and_pad_content (img : Image) (w h : Z) :
  0 < w → 0 < h → 0 < PIL.width img → 0 < PIL.height img →
  ∃ scaled canvas x y,
    thumbnail_lanczos img w h = Return scaled ∧
    paste_position scaled w h = (x, y) ∧
    fit_and_pad img w h = Return canvas ∧
    ∀ sx sy p,
      getpixel scaled sx sy = Some p →
      getpixel canvas (x + sx) (y + sy) = Some (blend_pixel p transparent p).
Proof.
  intros Hw Hh Hiw Hih.
  destruct (fit_and_pad_pixels img w h Hiw Hih Hw Hh)
    as (scaled & canvas & x & y & Hs & Hp & Hc & _ & Hx & Hy & Hpix).
  exists scaled, canvas, x, y. do 3 (split; [done|]).
  intros sx sy p Hsp.
  pose proof (getpixel_inv _ _ _ _ Hsp) as [Hsx Hsy].
  rewrite Hpix by lia.
  replace (x + sx - x) with sx by lia. replace (y + sy - y) with sy by lia.
  by rewrite Hsp.
Qed.

(** An opaque pixel of the scaled image is copied to the output as it
    is. *)
Theorem opaque_content_is_copied (img : Image) (width height : Z) :
  0 < width → 0 < height → 0 < PIL.width img → 0 < PIL.height img →
  ∃ scaled canvas x y,
    thumbnail_lanczos img width height = Return scaled ∧
    paste_position scaled width height = (x, y) ∧
    fit_and_pad img width height = Return canvas ∧
    ∀ sx sy p,
      getpixel scaled sx sy = Some p →
      0 ≤ red p ≤ 255 → 0 ≤ green p ≤ 255 → 0 ≤ blue p ≤ 255 →
      alpha p = 255 →
      getpixel canvas (x + sx) (y + sy) = Some p.
Proof.
  intros Hw Hh Hiw Hih.
  destruct (fit_and_pad_content img width height Hw Hh Hiw Hih)
    as (scaled & canvas & x & y & Hs & Hp & Hc & Hpix).
  exists scaled, canvas, x, y. do 3 (split; [done|]).
  intros sx sy p Hsp Hr Hg Hb Ha.
  rewrite (Hpix _ _ _ Hsp). f_equal. by apply blend_opaque.
Qed.

(** A pixel of the scaled image that is neither opaque nor fully
    transparent comes out more transparent than it was: its alpha [a]
    becomes [DIV255 (a * a)], which is less than [a], and no colour band
    grows. *)
Theorem translucent_content_fades (img : Image) (width height : Z) :
  0 < width → 0 < height → 0 < PIL.width img → 0 < PIL.height img →
  ∃ scaled canvas x y,
    thumbnail_lanczos img width height = Return scaled ∧
    paste_position scaled width height = (x, y) ∧
    fit_and_pad img width height = Return canvas ∧
    ∀ sx sy p,
      getpixel scaled sx sy = Some p →
      0 ≤ red p ≤ 255 → 0 ≤ green p ≤ 255 → 0 ≤ blue p ≤ 255 →
      0 < alpha p < 255 →
      ∃ q, getpixel canvas (x + sx) (y + sy) = Some q ∧
           alpha q = DIV255 (alpha p * alpha p) ∧ alpha q < alpha p ∧
           red q ≤ red p ∧ green q ≤ green p ∧ blue q ≤ blue p.
Proof.
  intros Hw Hh Hiw Hih.
  destruct (fit_and_pad_content img width height Hw Hh Hiw Hih)
    as (scaled & canvas & x & y & Hs & Hp & Hc & Hpix).
  exists scaled, canvas, x, y. do 3 (split; [done|]).
  intros sx sy p Hsp Hr Hg Hb Ha.
  exists (blend_pixel p transparent p). split; [by apply Hpix|].
  destruct p as [[[r g] b] a].
  unfold blend_pixel, transparent, red, green, blue, alpha in *. simpl in *.
  pose proof (BLEND_on_transparent a a ltac:(lia) ltac:(lia))
    as (Haa & _ & Hlt).
  pose proof (BLEND_on_transparent a r ltac:(lia) Hr) as (_ & Hra & _).
  pose proof (BLEND_on_transparent a g ltac:(lia) Hg) as (_ & Hga & _).
  pose proof (BLEND_on_transparent a b ltac:(lia) Hb) as (_ & Hba & _).
  split; [done|]. split; [by apply Hlt | lia].
Qed.

End MoreTransformFacts.

Lemma truediv_Raise (a b : Q) (e : exn) :
  truediv a b = Raise e → exn_cls e = ZeroDivisionError.
Proof. unfold truediv. destruct (Qeq_bool b 0); by intros [= <-]. Qed.

Lemma preserve_aspect_ratio_Raise (tie : bool) (self : Image) (sz : Z * Z)
    (e : exn) :
  preserve_aspect_ratio tie self sz = Raise e → exn_cls e = ZeroDivisionError.
Proof.
  destruct sz as [x y]. unfold preserve_aspect_ratio.
  case_bool_decide; [discriminate|].
  destruct (truediv (inject_Z (width self)) _) as [aspect|e1] eqn:E1;
    [rewrite bind_Return | rewrite bind_Raise; intros [= <-];
                           by eapply truediv_Raise].
  destruct (truediv (inject_Z x) (inject_Z y)) as [r|e2] eqn:E2;
    [rewrite bind_Return | rewrite bind_Raise; intros [= <-];
                           by eapply truediv_Raise].
  destruct (Qle_bool aspect r); [discriminate|].
  destruct (truediv (inject_Z x) aspect) as [q|e3] eqn:E3;
    [discriminate | rewrite bind_Raise; intros [= <-]; by eapply truediv_Raise].
Qed.

Section TargetFacts.

Context `{Platform Storage}.

Lemma thumbnail_Raise (self : Image) (sz : Z * Z) (resample : Z) (e : exn) :
  thumbnail self sz resample = Raise e →
  exn_cls e = ZeroDivisionError ∨ exn_cls e = ValueError.
Proof.
  unfold thumbnail.
  destruct (preserve_aspect_ratio _ self sz) as [[sz'|]|e1] eqn:E.
  - rewrite bind_Return. case_bool_decide; [|discriminate].
    unfold resize. case_bool_decide; [intros [= <-]; by left|].
    case_bool_decide; [|discriminate].
    intros [= <-]. by right.
  - discriminate.
  - rewrite bind_Raise. intros [= <-]. left.
    by eapply preserve_aspect_ratio_Raise.
Qed.

Lemma thumbnail_lanczos_Raise (img : Image) (w h : Z) (e : exn) :
  thumbnail img (w, h) LANCZOS = Raise e →
  thumbnail_lanczos img w h = Raise e.
Proof.
  intros Ht. unfold thumbnail_lanczos, Resampling_LANCZOS.
  destruct has_Resampling.
  - rewrite bind_Return, Ht. by case_bool_decide.
  - by rewrite bind_Raise, bool_decide_eq_true_2.
Qed.

Lemma thumbnail_lanczos_Raise_class (img : Image) (w h : Z) (e : exn) :
  thumbnail_lanczos img w h = Raise e →
  exn_cls e = ZeroDivisionError ∨ exn_cls e = ValueError.
Proof.
  unfold thumbnail_lanczos, Resampling_LANCZOS.
  destruct has_Resampling.
  - rewrite bind_Return.
    destruct (thumbnail img (w, h) LANCZOS) as [img'|e1] eqn:Ht; [discriminate|].
    case_bool_decide; rewrite ?Ht; intros [= <-]; by eapply thumbnail_Raise.
  - rewrite bind_Raise, bool_decide_eq_true_2 by done.
    by apply thumbnail_Raise.
Qed.

(** With a target side of 0 the thumbnail step fails. *)
Lemma thumbnail_zero_side (img : Image) (w h : Z) :
  0 < PIL.width img → 0 < PIL.height img →
  0 ≤ w → 0 ≤ h → w = 0 ∨ h = 0 →
  ∃ e, thumbnail img (w, h) LANCZOS = Raise e.
Proof.
  intros Hiw Hih Hw Hh Hzero. unfold thumbnail, preserve_aspect_ratio.
  rewrite bool_decide_eq_false_2 by lia.
  rewrite (truediv_pos (inject_Z (PIL.width img))) by (by apply inject_Z_pos).
  rewrite bind_Return.
  destruct (decide (h = 0)) as [-> | Hh0].
  - assert (truediv (inject_Z w) (inject_Z 0) =
            Raise (Exn ZeroDivisionError "division by zero")) as ->
      by reflexivity.
    rewrite bind_Raise. eauto.
  - assert (w = 0) as -> by lia.
    rewrite (truediv_pos (inject_Z 0) (inject_Z h))
      by (apply inject_Z_pos; lia).
    rewrite bind_Return.
    destruct (Qle_bool _ _) eqn:E.
    { apply Qle_bool_iff in E.
      apply (Qdiv_le_cross (PIL.width img) (PIL.height img) 0 h) in E; nia. }
    rewrite truediv_pos by (by apply Qdiv_pos).
    rewrite !bind_Return.
    rewrite bool_decide_eq_true_2.
    + unfold resize. rewrite bool_decide_eq_true_2 by (simpl; lia). eauto.
    + intros Esz. unfold PIL.width in Hiw. rewrite Esz in Hiw. simpl in Hiw. lia.
Qed.

(** The transform does not check its target: with a width or a height
    that is not positive it ends in the generic failure
    "Error processing image: ..." and nothing is saved. *)
Theorem nonpositive_target_is_a_generic_failure
    (st : Storage) (input_path output_path : string) (width height : Z)
    (img : Image) :
  Image_open st input_path = Return img →
  0 < PIL.width img → 0 < PIL.height img →
  width ≤ 0 ∨ height ≤ 0 →
  (resize_with_transparent_bg st input_path output_path width height).1 = st ∧
  ∃ cause,
    (resize_with_transparent_bg st input_path output_path width height).2 =
      Raise (Exn Exception ("Error processing image: " +:+ cause)).
Proof.
  intros Hopen Hiw Hih Hbad.
  assert (∃ e, fit_and_pad img width height = Raise e ∧
               (exn_cls e = ZeroDivisionError ∨ exn_cls e = ValueError))
    as (e & Hfit & Hcls).
  { unfold fit_and_pad.
    destruct (thumbnail_lanczos img width height) as [scaled|e] eqn:Ht.
    - rewrite bind_Return.
      destruct (decide (width < 0 ∨ height < 0)) as [Hneg | Hnn].
      + unfold Image_new. rewrite bool_decide_eq_true_2 by done.
        rewrite bind_Raise. eexists. split; [done|]. by right.
      + destruct (thumbnail_zero_side img width height Hiw Hih)
          as [e He]; [lia..|].
        apply thumbnail_lanczos_Raise in He. congruence.
    - rewrite bind_Raise. exists e. split; [done|].
      by eapply thumbnail_lanczos_Raise_class. }
  unfold resize_with_transparent_bg, resize_body. rewrite Hopen, Hfit.
  simpl. split; [done|]. exists (exn_str e). unfold handle.
  by destruct Hcls as [-> | ->].
Qed.

End TargetFacts.

(** ** The further properties at work *)

Lemma select_output_ends_with_png_witness :
  endswith (lower (output_var (select_output "cover.JPG" initial_vars))) ".png"
  = true.
Proof.
  apply (select_output_ends_with_png "cover.JPG" initial_vars). discriminate.
Defined.

Lemma select_output_idempotent_witness :
  select_output (output_var (select_output "cover.PNG" initial_vars))
    (select_output "cover.PNG" initial_vars)
  = select_output "cover.PNG" initial_vars.
Proof.
  apply (select_output_idempotent "cover.PNG" initial_vars). discriminate.
Defined.

Lemma select_input_suggests_png_name_witness :
  (∀ stem ext,
     contains_char "." ext = false →
     select_input (stem +:+ "." +:+ ext) initial_vars =
       set_output_var (set_input_var initial_vars (stem +:+ "." +:+ ext))
         (stem +:+ ".png")) ∧
  (∀ path,
     path ≠ EmptyString → contains_char "." path = false →
     select_input path initial_vars =
       set_output_var (set_input_var initial_vars path) (path +:+ ".png")).
Proof.
  apply (select_input_suggests_png_name initial_vars). reflexivity.
Defined.

Lemma suggested_output_needs_no_extension_witness :
  select_output (output_var (select_input "/home/me.d/holiday" initial_vars))
    (select_input "/home/me.d/holiday" initial_vars)
  = select_input "/home/me.d/holiday" initial_vars.
Proof.
  apply (suggested_output_needs_no_extension "/home/me.d/holiday" initial_vars);
    [reflexivity | discriminate].
Defined.

Lemma png_source_suggests_itself_witness :
  output_var (select_input ("logo" +:+ ".png") initial_vars) = "logo" +:+ ".png" ∧
  input_var (select_input ("logo" +:+ ".png") initial_vars) = "logo" +:+ ".png".
Proof.
  apply (png_source_suggests_itself "logo" initial_vars). reflexivity.
Defined.

Lemma run_conversion_shows_one_box_witness :
  vars (show (set_status (Session.form "missing.png" "out.png" "1080" "1350") "Error")
          (showerror "Error" "Could not find input file: missing.png"))
  = vars (Session.form "missing.png" "out.png" "1080" "1350") ∧
  ∃ box : messagebox,
    shown (show (set_status (Session.form "missing.png" "out.png" "1080" "1350") "Error")
             (showerror "Error" "Could not find input file: missing.png"))
    = (shown (Session.form "missing.png" "out.png" "1080" "1350") ++ [box])%list ∧
    ((status_label
        (show (set_status (Session.form "missing.png" "out.png" "1080" "1350") "Error")
           (showerror "Error" "Could not find input file: missing.png"))
      = status_label (Session.form "missing.png" "out.png" "1080" "1350") ∧
      Disk.shelf = Disk.shelf ∧
      (box = showerror "Missing Paths"
               "Please select both input and output files." ∨
       box = showerror "Invalid Dimensions"
               "Width and height must be positive integers.")) ∨
     (status_label
        (show (set_status (Session.form "missing.png" "out.png" "1080" "1350") "Error")
           (showerror "Error" "Could not find input file: missing.png"))
      = "Ready" ∧ ∃ message, box = showinfo "Success" message) ∨
     (status_label
        (show (set_status (Session.form "missing.png" "out.png" "1080" "1350") "Error")
           (showerror "Error" "Could not find input file: missing.png"))
      = "Error" ∧ ∃ message, box = showerror "Error" message)).
Proof.
  apply (run_conversion_shows_one_box Disk.shelf Disk.shelf
           (Session.form "missing.png" "out.png" "1080" "1350")).
  reflexivity.
Defined.

Lemma run_conversion_validates_before_resizing_witness :
  ∃ w h,
    0 < w ∧ 0 < h ∧
    int_of_str "3" = Return w ∧ int_of_str "3" = Return h ∧
    str_strip " photo.png" ≠ EmptyString ∧
    str_strip "out.png " ≠ EmptyString ∧
    (resize_with_transparent_bg Disk.shelf "photo.png" "out.png" 3 3).1 =
    (resize_with_transparent_bg Disk.shelf (str_strip " photo.png")
       (str_strip "out.png ") w h).1.
Proof.
  apply (run_conversion_validates_before_resizing Disk.shelf
           (resize_with_transparent_bg Disk.shelf "photo.png" "out.png" 3 3).1
           (Session.form " photo.png" "out.png " "3" "3")
           (show (set_status (Session.form " photo.png" "out.png " "3" "3") "Ready")
              (showinfo "Success" (success_message "out.png" 3 3)))).
  - reflexivity.
  - intros E. apply (f_equal (λ d, Disk.files d !! "out.png")) in E.
    vm_compute in E. discriminate.
Defined.

Lemma missing_input_is_shown_to_the_user_witness :
  run_conversion Disk.shelf (Session.form " missing.png" "out.png" "1080" "1350") =
    Return (Disk.shelf,
            show (set_status (Session.form " missing.png" "out.png" "1080" "1350")
                    "Error")
              (showerror "Error"
                 ("Could not find input file: " +:+ str_strip " missing.png"))).
Proof.
  apply (missing_input_is_shown_to_the_user Disk.shelf
           (Session.form " missing.png" "out.png" "1080" "1350") 1080 1350
           (Exn FileNotFoundError
              "[Errno 2] No such file or directory: 'missing.png'"));
    (discriminate || reflexivity).
Defined.


Lemma preset_dimensions_pass_validation_witness :
  read_dimensions
    {| vars := {| input_var := EmptyString; output_var := EmptyString;
                  width_var := "1080"; height_var := "1350";
                  preset_var := "Portrait (4:5) 1080×1350" |};
       status_label := "Ready"; shown := [] |}
  = Return (1080, 1350) ∧ 0 < 1080 ∧ 0 < 1350.
Proof.
  apply (preset_dimensions_pass_validation initial_vars
           {| input_var := EmptyString; output_var := EmptyString;
              width_var := "1080"; height_var := "1350";
              preset_var := "Portrait (4:5) 1080×1350" |});
    reflexivity.
Defined.

Lemma window_is_centred_within_a_pixel_witness :
  ∃ x y,
    window_origin 1920 1080 401 200 = (x, y) ∧
    0 ≤ x ∧ x + 401 ≤ 1920 ∧ 0 ≤ y ∧ y + 200 ≤ 1080 ∧
    -1 ≤ (1920 - (x + 401)) - x ≤ 1 ∧ -1 ≤ (1080 - (y + 200)) - y ≤ 1.
Proof.
  apply (window_is_centred_within_a_pixel 1920 1080 401 200); lia.
Defined.

Lemma scaled_never_exceeds_source_witness :
  ∃ scaled,
    thumbnail_lanczos Disk.photo 3 3 = Return scaled ∧
    PIL.width scaled ≤ PIL.width Disk.photo ∧
    PIL.height scaled ≤ PIL.height Disk.photo.
Proof.
  apply (scaled_never_exceeds_source (H := Disk.platform) Disk.photo 3 3);
    reflexivity.
Defined.

Lemma shrunk_content_spans_the_box_witness :
  ∃ scaled x y,
    thumbnail_lanczos Disk.photo 3 3 = Return scaled ∧
    paste_position scaled 3 3 = (x, y) ∧
    ((PIL.width scaled = 3 ∧ x = 0) ∨ (PIL.height scaled = 3 ∧ y = 0)).
Proof.
  apply (shrunk_content_spans_the_box (H := Disk.platform) Disk.photo 3 3);
    [reflexivity.. |].
  unfold PIL.width, PIL.height, Disk.photo, Disk.plain; simpl; lia.
Defined.

Lemma opaque_content_is_copied_witness :
  ∃ scaled canvas x y,
    thumbnail_lanczos Disk.photo 3 3 = Return scaled ∧
    paste_position scaled 3 3 = (x, y) ∧
    fit_and_pad Disk.photo 3 3 = Return canvas ∧
    ∀ sx sy p,
      getpixel scaled sx sy = Some p →
      0 ≤ red p ≤ 255 → 0 ≤ green p ≤ 255 → 0 ≤ blue p ≤ 255 →
      alpha p = 255 →
      getpixel canvas (x + sx) (y + sy) = Some p.
Proof.
  apply (opaque_content_is_copied (H := Disk.platform) Disk.photo 3 3);
    reflexivity.
Defined.

Lemma translucent_content_fades_witness :
  ∃ scaled canvas x y,
    thumbnail_lanczos (Disk.plain 2 1 (90, 90, 90, 100)) 5 4 = Return scaled ∧
    paste_position scaled 5 4 = (x, y) ∧
    fit_and_pad (Disk.plain 2 1 (90, 90, 90, 100)) 5 4 = Return canvas ∧
    ∀ sx sy p,
      getpixel scaled sx sy = Some p →
      0 ≤ red p ≤ 255 → 0 ≤ green p ≤ 255 → 0 ≤ blue p ≤ 255 →
      0 < alpha p < 255 →
      ∃ q, getpixel canvas (x + sx) (y + sy) = Some q ∧
           alpha q = DIV255 (alpha p * alpha p) ∧ alpha q < alpha p ∧
           red q ≤ red p ∧ green q ≤ green p ∧ blue q ≤ blue p.
Proof.
  apply (translucent_content_fades (H := Disk.platform)
           (Disk.plain 2 1 (90, 90, 90, 100)) 5 4); reflexivity.
Defined.

Lemma nonpositive_target_is_a_generic_failure_witness :
  (resize_with_transparent_bg Disk.shelf "photo.png" "out.png" 1080 0).1
    = Disk.shelf ∧
  ∃ cause,
    (resize_with_transparent_bg Disk.shelf "photo.png" "out.png" 1080 0).2 =
      Raise (Exn Exception ("Error processing image: " +:+ cause)).
Proof.
  apply (nonpositive_target_is_a_generic_failure Disk.shelf
           "photo.png" "out.png" 1080 0 Disk.photo);
    [reflexivity | reflexivity | reflexivity | right; lia].
Defined.
